(** * strava-cli: configuration store, token lifecycle and OAuth callback

    A shallow embedding of [strava_cli/config.py], [strava_cli/client.py],
    [strava_cli/auth.py], [strava_cli/commands/auth.py] and the error
    boundary of [strava_cli/decorators.py], followed by the properties of the
    specification that concern them.

    Conventions.
    - Python [str] is [string]; [int] is [Z]; [X | None] is [option X];
      [time.time()] is a rational number [Q] (a float compares with an int by
      value, so only the order of the two numbers matters).
    - A Python [dict] keeps insertion order, which decides the order of the
      sections [Config.save] writes: it is an association list ([dict]).
    - [os.environ] and the file system are finite maps.
    - Functions that raise return a [result]; functions that also mutate
      run in the state and exception monad [M]. *)

From Stdlib Require Import ZArith QArith String Ascii List Lia DecimalString DecimalZ.
From stdpp Require Import gmap strings list.

Set Warnings "-register-all".

Close Scope Q_scope.
Open Scope string_scope.
Open Scope list_scope.
Open Scope Z_scope.

(* ===================================================================== *)
(** ** Python values: truthiness and insertion-ordered dictionaries      *)
(* ===================================================================== *)

Module Py.

(** [bool(s)] for a [str]. *)
Definition truthy_str (s : string) : bool :=
  match s with EmptyString => false | String _ _ => true end.

(** [bool(x)] for [x : str | None]. *)
Definition truthy_ostr (x : option string) : bool :=
  match x with Some s => truthy_str s | None => false end.

(** [bool(x)] for [x : int | None]. *)
Definition truthy_oint (x : option Z) : bool :=
  match x with Some z => negb (z =? 0) | None => false end.

(** [bool(l)] for a list. *)
Definition truthy_list {A : Type} (l : list A) : bool :=
  match l with [] => false | _ :: _ => true end.

(** Insertion-ordered dictionary with string keys. *)
Definition dict (V : Type) : Type := list (string * V).

Fixpoint dict_get {V : Type} (k : string) (d : dict V) : option V :=
  match d with
  | [] => None
  | (k', v) :: d' => if String.eqb k k' then Some v else dict_get k d'
  end.

(** [k in d] *)
Definition dict_mem {V : Type} (k : string) (d : dict V) : bool :=
  match dict_get k d with Some _ => true | None => false end.

(** [d[k] = v]: an existing key keeps its position, a new key goes last. *)
Fixpoint dict_set {V : Type} (k : string) (v : V) (d : dict V) : dict V :=
  match d with
  | [] => [(k, v)]
  | (k', v') :: d' =>
      if String.eqb k k' then (k', v) :: d' else (k', v') :: dict_set k v d'
  end.

Definition keys {V : Type} (d : dict V) : list string := map fst d.

(** [s.split(sep)] for a separator of one character. *)
Fixpoint split_on (sep : ascii) (s : string) : list string :=
  match s with
  | EmptyString => [EmptyString]
  | String c r =>
      if Ascii.eqb c sep then EmptyString :: split_on sep r
      else match split_on sep r with
           | l :: ls => String c l :: ls
           | [] => [String c EmptyString]
           end
  end.

End Py.

Import Py.

(* ===================================================================== *)
(** ** exceptions.py                                                     *)
(* ===================================================================== *)

(** The [OSError] subclasses the file operations below raise. *)
Inductive os_error : Type :=
| FileNotFoundError
| FileExistsError
| NotADirectoryError
| IsADirectoryError.

(** The exceptions that reach the modelled code.  [TokenRefreshErrorFrom e]
    is [TokenRefreshError(str(e))] raised [from e]; [EndpointError] is
    whatever the call of the token endpoint raised; [Exit] is [typer.Exit];
    the others that are not classes of exceptions.py are the built-in
    exceptions of the same name. *)
Inductive exn : Type :=
| AuthenticationError (message : string) (hint : option string)
| TokenRefreshError (reason : string)
| TokenRefreshErrorFrom (cause : exn)
| ConfigurationError (message : string)
| MissingCredentialsError
| TOMLDecodeError
| OSError (kind : os_error)
| AttributeError
| IndexError
| KeyError (key : string)
| Exit (code : Z)
| EndpointError (text : string).

Definition login_hint : string := "Run 'strava auth login' to re-authenticate.".

(** [AuthenticationError()] with the default message of its [__init__]. *)
Definition AuthenticationError_default : exn :=
  AuthenticationError "Not authenticated. Run 'strava auth login' first." None.

(** [isinstance(e, AuthenticationError)]: [TokenRefreshError] is a subclass. *)
Definition is_AuthenticationError (e : exn) : bool :=
  match e with
  | AuthenticationError _ _ | TokenRefreshError _ | TokenRefreshErrorFrom _ => true
  | _ => false
  end.

(** [isinstance(e, ConfigurationError)]: [MissingCredentialsError] is a subclass. *)
Definition is_ConfigurationError (e : exn) : bool :=
  match e with
  | ConfigurationError _ | MissingCredentialsError => true
  | _ => false
  end.

(** [isinstance(e, StravaCLIError)]. *)
Definition is_StravaCLIError (e : exn) : bool :=
  is_AuthenticationError e || is_ConfigurationError e.

(** The [hint] attribute of a [StravaCLIError]. *)
Definition exn_hint (e : exn) : option string :=
  match e with
  | AuthenticationError _ h => h
  | TokenRefreshError _ | TokenRefreshErrorFrom _ => Some login_hint
  | MissingCredentialsError =>
      Some "See 'strava auth login --help' for setup instructions."
  | _ => None
  end.

(** The [exit_code] class attribute of a [StravaCLIError]. *)
Definition exit_code (e : exn) : Z :=
  match e with
  | AuthenticationError _ _ | TokenRefreshError _ | TokenRefreshErrorFrom _ => 2
  | ConfigurationError _ | MissingCredentialsError => 2
  | _ => 1
  end.

(** Outcome of a call: a value, a raised exception, or [OutOfModel] when the
    input leaves the fragment of Python and TOML this development covers
    (nothing is claimed about the program there). *)
Inductive result (A : Type) : Type :=
| Ok (a : A)
| Raise (e : exn)
| OutOfModel.

Arguments Ok {A} a.
Arguments Raise {A} e.
Arguments OutOfModel {A}.

Definition rbind {A B : Type} (r : result A) (k : A -> result B) : result B :=
  match r with
  | Ok a => k a
  | Raise e => Raise e
  | OutOfModel => OutOfModel
  end.

(** State and exception monad: effects made before a [raise] persist. *)
Definition M (S A : Type) : Type := S -> result A * S.

Definition ret {S A : Type} (a : A) : M S A := fun s => (Ok a, s).
Definition raise {S A : Type} (e : exn) : M S A := fun s => (Raise e, s).
Definition bind {S A B : Type} (m : M S A) (k : A -> M S B) : M S B :=
  fun s => match m s with
           | (Ok a, s') => k a s'
           | (Raise e, s') => (Raise e, s')
           | (OutOfModel, s') => (OutOfModel, s')
           end.
Definition get {S : Type} : M S S := fun s => (Ok s, s).
Definition modify {S : Type} (f : S -> S) : M S unit := fun s => (Ok tt, f s).
Definition lift_result {S A : Type} (r : result A) : M S A := fun s => (r, s).

(** [try: body  except Exception as e: handler(e)] *)
Definition try_except {S A : Type} (body : M S A) (handler : exn -> M S A) : M S A :=
  fun s => match body s with
           | (Raise e, s') => handler e s'
           | other => other
           end.

Declare Scope monad_scope.
Delimit Scope monad_scope with monad.
Notation "x <- m ;; k" := (bind m (fun x => k))
  (at level 100, m at next level, right associativity) : monad_scope.
Notation "m ;;; k" := (bind m (fun _ => k))
  (at level 100, right associativity) : monad_scope.

(* ===================================================================== *)
(** ** config.py: the data model                                         *)
(* ===================================================================== *)

Record AuthConfig : Type := mkAuthConfig {
  access_token : option string;
  refresh_token : option string;
  expires_at : option Z;
  athlete_id : option Z;
  scopes : list string
}.

(** [AuthConfig()] *)
Definition AuthConfig_new : AuthConfig := mkAuthConfig None None None None [].

Record DefaultsConfig : Type := mkDefaultsConfig {
  format : string;
  limit : Z
}.

(** [DefaultsConfig()] *)
Definition DefaultsConfig_new : DefaultsConfig := mkDefaultsConfig "json" 30.

Record Config : Type := mkConfig {
  auth : AuthConfig;
  defaults : DefaultsConfig;
  profiles : dict AuthConfig;
  client_id : option string;
  client_secret : option string
}.

(** [Config()] *)
Definition Config_new : Config :=
  mkConfig AuthConfig_new DefaultsConfig_new [] None None.

Definition set_auth (a : AuthConfig) (c : Config) : Config :=
  mkConfig a (defaults c) (profiles c) (client_id c) (client_secret c).
Definition set_profiles (p : dict AuthConfig) (c : Config) : Config :=
  mkConfig (auth c) (defaults c) p (client_id c) (client_secret c).
Definition set_client (i s : option string) (c : Config) : Config :=
  mkConfig (auth c) (defaults c) (profiles c) i s.

(** [AuthConfig.is_authenticated] *)
Definition is_authenticated (a : AuthConfig) : bool :=
  match access_token a with Some _ => true | None => false end.

(** [AuthConfig.is_expired]; [now] is the value [time.time()] returns. *)
Definition is_expired (now : Q) (a : AuthConfig) : bool :=
  match expires_at a with
  | None => true
  | Some e => Qle_bool (inject_Z e) now
  end.

(** [Config.get_profile] *)
Definition get_profile (c : Config) (name : option string) : AuthConfig :=
  match name with
  | Some n =>
      if truthy_str n && dict_mem n (profiles c)
      then match dict_get n (profiles c) with
           | Some a => a
           | None => auth c
           end
      else auth c
  | None => auth c
  end.

(** [Config.clear_auth] *)
Definition clear_auth (c : Config) (profile : option string) : Config :=
  if truthy_ostr profile && dict_mem (default EmptyString profile) (profiles c)
  then set_profiles (dict_set (default EmptyString profile) AuthConfig_new (profiles c)) c
  else set_auth AuthConfig_new c.

(* ===================================================================== *)
(** ** Text: what [Config.save] writes                                   *)
(* ===================================================================== *)

Definition dq : ascii := "034"%char.
Definition backslash : ascii := "092"%char.
Definition newline : ascii := "010"%char.
Definition tab : ascii := "009"%char.

(** [f'"{s}"'] *)
Definition quoted (s : string) : string :=
  String dq (s +:+ String dq EmptyString).

(** [str(n)] for an [int]: decimal digits, with a minus sign when negative. *)
Definition str_of_int (z : Z) : string := NilZero.string_of_int (Z.to_int z).

(** [if v: lines.append(f'key = "{v}"')] *)
Definition str_line (key : string) (v : option string) : list string :=
  if truthy_ostr v then [key +:+ " = " +:+ quoted (default EmptyString v)] else [].

(** [if v: lines.append(f"key = {v}")] *)
Definition int_line (key : string) (v : option Z) : list string :=
  if truthy_oint v then [key +:+ " = " +:+ str_of_int (default 0 v)] else [].

(** The scopes line of the [auth] section. *)
Definition scopes_line (l : list string) : list string :=
  if truthy_list l
  then ["scopes = [" +:+ String.concat ", " (map quoted l) +:+ "]"]
  else [].

Definition client_lines (c : Config) : list string :=
  if truthy_ostr (client_id c) || truthy_ostr (client_secret c)
  then ["[client]"] ++ str_line "id" (client_id c)
       ++ str_line "secret" (client_secret c) ++ [EmptyString]
  else [].

Definition auth_lines (a : AuthConfig) : list string :=
  ["[auth]"] ++ str_line "access_token" (access_token a)
  ++ str_line "refresh_token" (refresh_token a)
  ++ int_line "expires_at" (expires_at a)
  ++ int_line "athlete_id" (athlete_id a)
  ++ scopes_line (scopes a) ++ [EmptyString].

Definition defaults_lines (d : DefaultsConfig) : list string :=
  ["[defaults]"; "format = " +:+ quoted (format d);
   "limit = " +:+ str_of_int (limit d); EmptyString].

(** One iteration of [for name, profile in self.profiles.items()]: the
    scopes of a profile are not written. *)
Definition profile_lines (np : string * AuthConfig) : list string :=
  ["[profiles." +:+ fst np +:+ "]"]
  ++ str_line "access_token" (access_token (snd np))
  ++ str_line "refresh_token" (refresh_token (snd np))
  ++ int_line "expires_at" (expires_at (snd np))
  ++ int_line "athlete_id" (athlete_id (snd np)) ++ [EmptyString].

(** The list [lines] that [Config.save] builds. *)
Definition save_lines (c : Config) : list string :=
  client_lines c ++ auth_lines (auth c) ++ defaults_lines (defaults c)
  ++ flat_map profile_lines (profiles c).

(** ["\n".join(lines)] *)
Definition save_text (c : Config) : string :=
  String.concat (String newline EmptyString) (save_lines c).

(* ===================================================================== *)
(** ** tomllib: the fragment of TOML that [Config.save] writes           *)
(* ===================================================================== *)

(** [tomllib] is the standard library's TOML parser, not code of this
    repository.  [Toml.loads] follows it on documents made of blank lines,
    table headers with bare keys, and [key = value] lines whose value is a
    basic string without escapes, a decimal integer or a one-line array of
    such strings.  On those it returns the dictionary [tomllib] returns, or
    [TOMLDecodeError] where [tomllib] raises it (a statement followed by
    something else on its line, an unterminated string or header, a key
    without [=], a key or table declared twice).  Every other construct of
    TOML (comments, quoted and dotted keys, escapes, multi-line values,
    floats, booleans, dates, inline tables, arrays of tables, carriage
    returns, bytes outside ASCII) gives [OutOfModel]. *)
Module Toml.

Inductive value : Type :=
| VStr (s : string)
| VInt (z : Z)
| VStrs (l : list string)
| VTab (t : list (string * value)).

Definition table : Type := dict value.

(** Result of reading a prefix of a line. *)
Inductive lex (A : Type) : Type :=
| LexOk (a : A) (rest : string)
| LexError
| LexBeyond.

Arguments LexOk {A} a rest.
Arguments LexError {A}.
Arguments LexBeyond {A}.

Definition code (c : ascii) : Z := Z.of_N (N_of_ascii c).

Definition is_ws (c : ascii) : bool := Ascii.eqb c " " || Ascii.eqb c tab.

(** Characters of a bare key: [A-Za-z0-9_-]. *)
Definition is_bare (c : ascii) : bool :=
  let n := code c in
  ((48 <=? n) && (n <=? 57)) || ((65 <=? n) && (n <=? 90))
  || ((97 <=? n) && (n <=? 122)) || (n =? 95) || (n =? 45).

(** Characters that stand for themselves inside a basic string: printable
    ASCII except the double quote and the backslash. *)
Definition is_plain (c : ascii) : bool :=
  let n := code c in
  (32 <=? n) && (n <=? 126) && negb (Ascii.eqb c dq) && negb (Ascii.eqb c backslash).

(** Printable ASCII, space excluded. *)
Definition is_graph (c : ascii) : bool :=
  let n := code c in (33 <=? n) && (n <=? 126).

Fixpoint all_chars (p : ascii -> bool) (s : string) : bool :=
  match s with
  | EmptyString => true
  | String c r => p c && all_chars p r
  end.

Definition plain (s : string) : bool := all_chars is_plain s.
Definition bare_key (s : string) : bool := truthy_str s && all_chars is_bare s.

Fixpoint skip_ws (s : string) : string :=
  match s with
  | String c r => if is_ws c then skip_ws r else s
  | EmptyString => s
  end.

(** The longest prefix of bare-key characters, and what follows it. *)
Fixpoint take_bare (s : string) : string * string :=
  match s with
  | String c r =>
      if is_bare c
      then let (k, rest) := take_bare r in (String c k, rest)
      else (EmptyString, s)
  | EmptyString => (EmptyString, EmptyString)
  end.

(** The longest prefix without white space or [#], and what follows it. *)
Fixpoint take_token (s : string) : string * string :=
  match s with
  | String c r =>
      if is_ws c || Ascii.eqb c "#"
      then (EmptyString, s)
      else let (k, rest) := take_token r in (String c k, rest)
  | EmptyString => (EmptyString, EmptyString)
  end.

(** What may follow a statement on its line: white space only. *)
Definition line_end (s : string) : lex unit :=
  match skip_ws s with
  | EmptyString => LexOk tt EmptyString
  | String c _ =>
      if Ascii.eqb c "#" then LexBeyond
      else if is_graph c then LexError
      else LexBeyond
  end.

(** A basic string, read from just after its opening quote. *)
Fixpoint basic_string (s : string) : lex string :=
  match s with
  | EmptyString => LexError
  | String c r =>
      if Ascii.eqb c dq then LexOk EmptyString r
      else if is_plain c then
        match basic_string r with
        | LexOk v rest => LexOk (String c v) rest
        | LexError => LexError
        | LexBeyond => LexBeyond
        end
      else LexBeyond
  end.

(** A basic string that is not the opening of a multi-line string. *)
Definition one_line_string (s : string) : lex string :=
  match basic_string s with
  | LexOk EmptyString (String c r) =>
      if Ascii.eqb c dq then LexBeyond else LexOk EmptyString (String c r)
  | other => other
  end.

(** The items of an array of basic strings, read from just after [[] or
    after a comma; [fuel] bounds the number of items. *)
Fixpoint array_items (fuel : nat) (s : string) : lex (list string) :=
  match fuel with
  | O => LexBeyond
  | S fuel' =>
      match skip_ws s with
      | String c r =>
          if Ascii.eqb c "]" then LexOk [] r
          else if Ascii.eqb c dq then
            match one_line_string r with
            | LexOk v rest =>
                match skip_ws rest with
                | String c' r' =>
                    if Ascii.eqb c' "]" then LexOk [v] r'
                    else if Ascii.eqb c' "," then
                      match array_items fuel' r' with
                      | LexOk vs rest' => LexOk (v :: vs) rest'
                      | LexError => LexError
                      | LexBeyond => LexBeyond
                      end
                    else LexBeyond
                | EmptyString => LexBeyond
                end
            | LexError => LexError
            | LexBeyond => LexBeyond
            end
          else LexBeyond
      | EmptyString => LexBeyond
      end
  end.

(** A decimal integer as [str] prints it; any other scalar is outside the
    fragment. *)
Definition int_token (t : string) : option Z :=
  match NilZero.int_of_string t with
  | Some d => if String.eqb (str_of_int (Z.of_int d)) t then Some (Z.of_int d) else None
  | None => None
  end.

(** The value of a [key = value] line, read from just after [=]. *)
Definition parse_value (s : string) : lex value :=
  match skip_ws s with
  | EmptyString => LexBeyond
  | String c r =>
      if Ascii.eqb c dq then
        match one_line_string r with
        | LexOk v rest => LexOk (VStr v) rest
        | LexError => LexError
        | LexBeyond => LexBeyond
        end
      else if Ascii.eqb c "[" then
        match array_items (S (String.length r)) r with
        | LexOk vs rest => LexOk (VStrs vs) rest
        | LexError => LexError
        | LexBeyond => LexBeyond
        end
      else
        let (t, rest) := take_token (String c r) in
        match int_token t with
        | Some z => LexOk (VInt z) rest
        | None => LexBeyond
        end
  end.

(** The dotted key of a table header, read from just after [[]. *)
Fixpoint header_keys (fuel : nat) (s : string) : lex (list string) :=
  match fuel with
  | O => LexBeyond
  | S fuel' =>
      let (k, r) := take_bare (skip_ws s) in
      match k with
      | EmptyString =>
          match r with
          | EmptyString => LexError
          | String _ _ => LexBeyond
          end
      | String _ _ =>
          match skip_ws r with
          | EmptyString => LexError
          | String c r' =>
              if Ascii.eqb c "]" then LexOk [k] r'
              else if Ascii.eqb c "." then
                match header_keys fuel' r' with
                | LexOk ks rest => LexOk (k :: ks) rest
                | LexError => LexError
                | LexBeyond => LexBeyond
                end
              else LexError
          end
      end
  end.

(** One line of the document. *)
Inductive line : Type :=
| Blank
| Header (path : list string)
| KeyVal (key : string) (v : value)
| BadLine
| BeyondLine.

Definition parse_line (s : string) : line :=
  match skip_ws s with
  | EmptyString => Blank
  | String c r =>
      if Ascii.eqb c "[" then
        match r with
        | String c' _ =>
            if Ascii.eqb c' "[" then BeyondLine
            else match header_keys (S (String.length r)) r with
                 | LexOk ks rest =>
                     match line_end rest with
                     | LexOk _ _ => Header ks
                     | LexError => BadLine
                     | LexBeyond => BeyondLine
                     end
                 | LexError => BadLine
                 | LexBeyond => BeyondLine
                 end
        | EmptyString => BadLine
        end
      else
        let (k, rest) := take_bare (String c r) in
        match k with
        | EmptyString => BeyondLine
        | String _ _ =>
            match skip_ws rest with
            | EmptyString => BadLine
            | String c' r' =>
                if Ascii.eqb c' "=" then
                  match parse_value r' with
                  | LexOk v rest' =>
                      match line_end rest' with
                      | LexOk _ _ => KeyVal k v
                      | LexError => BadLine
                      | LexBeyond => BeyondLine
                      end
                  | LexError => BadLine
                  | LexBeyond => BeyondLine
                  end
                else if Ascii.eqb c' "." then BeyondLine
                else if is_graph c' then BadLine
                else BeyondLine
            end
        end
  end.

(** [dict.update] of the table reached by [path] from [t], creating the
    tables on the way that do not exist yet; [None] when the path runs into
    a value that is not a table, or when [f] refuses. *)
Fixpoint at_path (path : list string) (f : table -> option table) (t : table)
  : option table :=
  match path with
  | [] => f t
  | k :: path' =>
      match dict_get k t with
      | None =>
          match at_path path' f [] with
          | Some sub => Some (dict_set k (VTab sub) t)
          | None => None
          end
      | Some (VTab sub) =>
          match at_path path' f sub with
          | Some sub' => Some (dict_set k (VTab sub') t)
          | None => None
          end
      | Some _ => None
      end
  end.

(** [nest[key] = v], refused when the key is already there. *)
Definition add_key (k : string) (v : value) (t : table) : option table :=
  if dict_mem k t then None else Some (dict_set k v t).

(** Parser state: the document so far, the headers declared so far, and the
    table the next [key = value] goes to. *)
Record state : Type := mkState {
  data : table;
  declared : list (list string);
  current : list string
}.

Definition initial : state := mkState [] [] [].

Definition path_eqb (p q : list string) : bool :=
  bool_decide (p = q).

Definition step (st : state) (l : string) : result state :=
  match parse_line l with
  | Blank => Ok st
  | Header p =>
      if existsb (path_eqb p) (declared st) then Raise TOMLDecodeError
      else match at_path p Some (data st) with
           | Some d => Ok (mkState d (p :: declared st) p)
           | None => Raise TOMLDecodeError
           end
  | KeyVal k v =>
      match at_path (current st) (add_key k v) (data st) with
      | Some d => Ok (mkState d (declared st) (current st))
      | None => Raise TOMLDecodeError
      end
  | BadLine => Raise TOMLDecodeError
  | BeyondLine => OutOfModel
  end.

Fixpoint run (st : state) (ls : list string) : result state :=
  match ls with
  | [] => Ok st
  | l :: ls' => rbind (step st l) (fun st' => run st' ls')
  end.

(** The lines of a text, separated by the newline character. *)
Definition split_lines (s : string) : list string := split_on newline s.

(** [tomllib.loads] *)
Definition loads (text : string) : result table :=
  rbind (run initial (split_lines text)) (fun st => Ok (data st)).

(** [bool(v)] for a parsed value. *)
Definition truthy (v : value) : bool :=
  match v with
  | VStr s => truthy_str s
  | VInt z => negb (z =? 0)
  | VStrs l => truthy_list l
  | VTab t => truthy_list t
  end.

End Toml.

(* ===================================================================== *)
(** ** The world outside: environment, file system, clock, network       *)
(* ===================================================================== *)

(** A [pathlib.Path]: whether it is absolute, and its components. *)
Abbreviation Path := (bool * list string)%type.

(** [Path(s)]: repeated slashes and single dots are dropped. *)
Definition Path_of_string (s : string) : Path :=
  (match s with String "/" _ => true | _ => false end,
   List.filter (fun c => negb (String.eqb c EmptyString) && negb (String.eqb c "."))
          (split_on "/" s)).

(** [p / name] for a single component [name]. *)
Definition Path_join (p : Path) (name : string) : Path := (fst p, snd p ++ [name]).

(** [p.parent]; the root and the current directory are their own parent. *)
Definition parent (p : Path) : Path := (fst p, removelast (snd p)).

(** Files carry their content and permission bits, directories their
    permission bits.  The root and the current directory always exist. *)
Record FS : Type := mkFS {
  dirs : gmap Path Z;
  files : gmap Path (string * Z)
}.

Definition is_file (f : FS) (p : Path) : bool :=
  match files f !! p with Some _ => true | None => false end.

Definition is_dir (f : FS) (p : Path) : bool :=
  negb (is_file f p) &&
  match snd p with
  | [] => true
  | _ :: _ => match dirs f !! p with Some _ => true | None => false end
  end.

(** [p.exists()] *)
Definition path_exists (f : FS) (p : Path) : bool := is_file f p || is_dir f p.

(** [stat.S_IRWXU], [stat.S_IRUSR], [stat.S_IWUSR] *)
Definition S_IRWXU : Z := 448.
Definition S_IRUSR : Z := 256.
Definition S_IWUSR : Z := 128.

(** Permission bits of a newly created entry: [mode & ~umask]. *)
Definition masked (mode um : Z) : Z := Z.land mode (Z.lnot um).

(** [os.mkdir(p)] with the default mode [0o777]. *)
Definition os_mkdir (um : Z) (p : Path) (f : FS) : result FS :=
  if path_exists f p then Raise (OSError FileExistsError)
  else if is_file f (parent p) then Raise (OSError NotADirectoryError)
  else if negb (is_dir f (parent p)) then Raise (OSError FileNotFoundError)
  else Ok (mkFS (<[p := masked 511 um]> (dirs f)) (files f)).

(** The [except OSError] clause of [Path.mkdir] with [exist_ok=True]. *)
Definition mkdir_exist_ok (e : exn) (p : Path) (f : FS) : result FS :=
  if is_dir f p then Ok f else Raise e.

(** [p.mkdir(parents=True, exist_ok=True)]; [fuel] is the number of
    components of [p], which bounds the calls on the parents. *)
Fixpoint mkdir_parents (fuel : nat) (um : Z) (p : Path) (f : FS) : result FS :=
  match os_mkdir um p f with
  | Ok f' => Ok f'
  | Raise (OSError FileNotFoundError) =>
      match fuel, snd p with
      | S fuel', _ :: _ =>
          match mkdir_parents fuel' um (parent p) f with
          | Ok f1 =>
              match os_mkdir um p f1 with
              | Ok f2 => Ok f2
              | Raise (OSError FileNotFoundError) => Raise (OSError FileNotFoundError)
              | Raise e => mkdir_exist_ok e p f1
              | OutOfModel => OutOfModel
              end
          | other => other
          end
      | _, _ => Raise (OSError FileNotFoundError)
      end
  | Raise e => mkdir_exist_ok e p f
  | OutOfModel => OutOfModel
  end.

(** [p.chmod(mode)] *)
Definition chmod (p : Path) (mode : Z) (f : FS) : result FS :=
  match files f !! p with
  | Some (content, _) => Ok (mkFS (dirs f) (<[p := (content, mode)]> (files f)))
  | None =>
      if is_dir f p then Ok (mkFS (<[p := mode]> (dirs f)) (files f))
      else Raise (OSError FileNotFoundError)
  end.

(** [p.write_text(text)]: an existing file keeps its permission bits. *)
Definition write_text (um : Z) (p : Path) (text : string) (f : FS) : result FS :=
  match files f !! p with
  | Some (_, mode) => Ok (mkFS (dirs f) (<[p := (text, mode)]> (files f)))
  | None =>
      if is_dir f p then Raise (OSError IsADirectoryError)
      else if is_file f (parent p) then Raise (OSError NotADirectoryError)
      else if is_dir f (parent p)
           then Ok (mkFS (dirs f) (<[p := (text, masked 438 um)]> (files f)))
           else Raise (OSError FileNotFoundError)
  end.

(** [open(p, "rb").read()] *)
Definition read_file (p : Path) (f : FS) : result string :=
  match files f !! p with
  | Some (content, _) => Ok content
  | None =>
      if is_dir f p then Raise (OSError IsADirectoryError)
      else if is_file f (parent p) then Raise (OSError NotADirectoryError)
      else Raise (OSError FileNotFoundError)
  end.

(** The permission bits of the entry at [p]. *)
Definition mode_of (f : FS) (p : Path) : option Z :=
  match files f !! p with
  | Some (_, mode) => Some mode
  | None => dirs f !! p
  end.

(** Body of a token response; [athlete] is the nested field
    [data["athlete"]["id"]] and [scope] the comma-separated field. *)
Record TokenData : Type := mkTokenData {
  td_access_token : string;
  td_refresh_token : string;
  td_expires_at : Z;
  td_athlete : option Z;
  td_scope : option string
}.

(** A request to the provider's token endpoint. *)
Inductive grant : Type :=
| AuthorizationCode (client_id client_secret code : string)
| RefreshGrant (client_id client_secret refresh_token : string).

(** What the process does that is visible outside.  [StderrExn pre e] is
    [print(f"{pre}{e}", file=sys.stderr)]; [ErrorLine e] is
    [print(f"error: {e.message}", file=sys.stderr)]; the URL of the
    authorization page is kept as the parameters given to [urlencode]. *)
Inductive event : Type :=
| Stderr (text : string)
| StderrExn (pre : string) (e : exn)
| StderrUrl (params : dict string)
| ErrorLine (e : exn)
| HintLine (hint : string)
| OpenBrowser (params : dict string)
| EmitResult (expires : Z)
| CallRefreshToken
| StravalibRefresh (client_id client_secret refresh_token : string)
| TokenPost (g : grant).

(** Class attributes of [OAuthCallbackHandler]. *)
Record Handler : Type := mkHandler {
  auth_code : option string;
  state : option string;
  error : option string
}.

(** Everything outside the program.  [stravalib_refresh i s r] is the value
    or the exception of the expression
    [self.client.refresh_access_token(client_id=int(i), client_secret=s,
    refresh_token=r)]; [http_token] is the provider's answer to a POST on the
    token URL, after [raise_for_status] and [json]; [callback] is the query
    of the request the local listener receives before its timeout, as
    [urllib.parse.parse_qs] returns it; [fresh_state] is what
    [secrets.token_urlsafe(16)] returns; [stdin] are the lines [input]
    reads, [None] standing for an interrupt or the end of input. *)
Record World : Type := mkWorld {
  environ : gmap string string;
  home : Path;
  umask : Z;
  fs : FS;
  now : Q;
  stravalib_refresh : string -> string -> string -> result TokenData;
  http_token : grant -> result TokenData;
  callback : option (dict (list string));
  fresh_state : string;
  stdin : list (option string);
  handler : Handler;
  trace : list event
}.

Definition set_fs (f : FS) (w : World) : World :=
  mkWorld (environ w) (home w) (umask w) f (now w) (stravalib_refresh w)
          (http_token w) (callback w) (fresh_state w) (stdin w) (handler w) (trace w).
Definition set_handler (h : Handler) (w : World) : World :=
  mkWorld (environ w) (home w) (umask w) (fs w) (now w) (stravalib_refresh w)
          (http_token w) (callback w) (fresh_state w) (stdin w) h (trace w).
Definition set_stdin (l : list (option string)) (w : World) : World :=
  mkWorld (environ w) (home w) (umask w) (fs w) (now w) (stravalib_refresh w)
          (http_token w) (callback w) (fresh_state w) l (handler w) (trace w).
Definition emit (e : event) (w : World) : World :=
  mkWorld (environ w) (home w) (umask w) (fs w) (now w) (stravalib_refresh w)
          (http_token w) (callback w) (fresh_state w) (stdin w) (handler w)
          (trace w ++ [e]).

(** A file-system operation as a step of the monad. *)
Definition fs_op (op : FS -> result FS) : M World unit :=
  fun w => match op (fs w) with
           | Ok f => (Ok tt, set_fs f w)
           | Raise e => (Raise e, w)
           | OutOfModel => (OutOfModel, w)
           end.

(** [os.environ.get(name)] *)
Definition getenv (w : World) (name : string) : option string := environ w !! name.

(* ===================================================================== *)
(** ** config.py: paths, load and save                                   *)
(* ===================================================================== *)

(** [get_config_dir] *)
Definition get_config_dir (w : World) : Path :=
  if truthy_ostr (getenv w "XDG_CONFIG_HOME")
  then Path_join (Path_of_string (default EmptyString (getenv w "XDG_CONFIG_HOME")))
                 "strava-cli"
  else Path_join (Path_join (home w) ".config") "strava-cli".

(** [get_config_path] *)
Definition get_config_path (w : World) : Path :=
  Path_join (get_config_dir w) "config.toml".

(** [if section := data.get(name):] then the section is used through its
    [get] method, which only a table has. *)
Definition get_section (name : string) (data : Toml.table) : result (option Toml.table) :=
  match dict_get name data with
  | None => Ok None
  | Some v =>
      if Toml.truthy v
      then match v with
           | Toml.VTab t => Ok (Some t)
           | _ => Raise AttributeError
           end
      else Ok None
  end.

(** [t.get(key)] read at the type the dataclass field declares; a value of
    another type would be stored as it is, which the typed records here
    cannot hold. *)
Definition get_str (key : string) (t : Toml.table) : result (option string) :=
  match dict_get key t with
  | None => Ok None
  | Some (Toml.VStr s) => Ok (Some s)
  | Some _ => OutOfModel
  end.

Definition get_int (key : string) (t : Toml.table) : result (option Z) :=
  match dict_get key t with
  | None => Ok None
  | Some (Toml.VInt z) => Ok (Some z)
  | Some _ => OutOfModel
  end.

(** [t.get(key, [])] *)
Definition get_strs (key : string) (t : Toml.table) : result (list string) :=
  match dict_get key t with
  | None => Ok []
  | Some (Toml.VStrs l) => Ok l
  | Some _ => OutOfModel
  end.

(** [AuthConfig(access_token=t.get("access_token"), ...)] *)
Definition auth_of_table (t : Toml.table) : result AuthConfig :=
  rbind (get_str "access_token" t) (fun a =>
  rbind (get_str "refresh_token" t) (fun r =>
  rbind (get_int "expires_at" t) (fun e =>
  rbind (get_int "athlete_id" t) (fun i =>
  rbind (get_strs "scopes" t) (fun s =>
  Ok (mkAuthConfig a r e i s)))))).

(** [DefaultsConfig(format=t.get("format", "json"), limit=t.get("limit", 30))] *)
Definition defaults_of_table (t : Toml.table) : result DefaultsConfig :=
  rbind (get_str "format" t) (fun f =>
  rbind (get_int "limit" t) (fun l =>
  Ok (mkDefaultsConfig (default "json" f) (default 30 l)))).

(** [for name, profile_data in profiles_data.items(): config.profiles[name] = ...] *)
Fixpoint load_profiles (items : list (string * Toml.value)) (acc : dict AuthConfig)
  : result (dict AuthConfig) :=
  match items with
  | [] => Ok acc
  | (name, Toml.VTab t) :: rest =>
      rbind (auth_of_table t) (fun a => load_profiles rest (dict_set name a acc))
  | (_, _) :: _ => Raise AttributeError
  end.

(** The part of [Config._load_from_file] after [tomllib.load]. *)
Definition config_of_data (data : Toml.table) : result Config :=
  rbind (get_section "client" data) (fun client_data =>
  rbind (match client_data with
         | Some t => rbind (get_str "id" t) (fun i =>
                     rbind (get_str "secret" t) (fun s => Ok (i, s)))
         | None => Ok (None, None)
         end) (fun client =>
  rbind (get_section "auth" data) (fun auth_data =>
  rbind (match auth_data with
         | Some t => auth_of_table t
         | None => Ok AuthConfig_new
         end) (fun a =>
  rbind (get_section "defaults" data) (fun defaults_data =>
  rbind (match defaults_data with
         | Some t => defaults_of_table t
         | None => Ok DefaultsConfig_new
         end) (fun d =>
  rbind (get_section "profiles" data) (fun profiles_data =>
  rbind (match profiles_data with
         | Some t => load_profiles t []
         | None => Ok []
         end) (fun ps =>
  Ok (mkConfig a d ps (fst client) (snd client)))))))))).

(** [Config._load_from_file] *)
Definition _load_from_file (w : World) (path : Path) : result Config :=
  rbind (read_file path (fs w)) (fun text =>
  rbind (Toml.loads text) config_of_data).

(** [Config._apply_env_overrides] *)
Definition _apply_env_overrides (w : World) (c : Config) : Config :=
  let c1 :=
    if truthy_ostr (getenv w "STRAVA_ACCESS_TOKEN")
    then set_auth (mkAuthConfig (getenv w "STRAVA_ACCESS_TOKEN")
                     (refresh_token (auth c)) (expires_at (auth c))
                     (athlete_id (auth c)) (scopes (auth c))) c
    else c in
  if truthy_ostr (getenv w "STRAVA_REFRESH_TOKEN")
  then set_auth (mkAuthConfig (access_token (auth c1))
                   (getenv w "STRAVA_REFRESH_TOKEN") (expires_at (auth c1))
                   (athlete_id (auth c1)) (scopes (auth c1))) c1
  else c1.

(** [Config.load] *)
Definition load (w : World) (path : option Path) : result Config :=
  let config_path := default (get_config_path w) path in
  rbind (if path_exists (fs w) config_path
         then _load_from_file w config_path
         else Ok Config_new) (fun config =>
  Ok (_apply_env_overrides w config)).

(** [Config.save] *)
Definition save (c : Config) (path : option Path) : M World unit :=
  (w <- get ;;
   let config_path := default (get_config_path w) path in
   fs_op (mkdir_parents (length (snd (parent config_path))) (umask w)
                        (parent config_path)) ;;;
   fs_op (chmod (parent config_path) S_IRWXU) ;;;
   fs_op (write_text (umask w) config_path (save_text c)) ;;;
   fs_op (chmod config_path (Z.lor S_IRUSR S_IWUSR)))%monad.

(** [get_client_credentials]; [env_id] and [env_secret] are the values of
    its locals after the two reads of the environment. *)
Definition get_client_credentials (w : World) (config : option Config)
  : result (option string * option string) :=
  let env_id := getenv w "STRAVA_CLIENT_ID" in
  let env_secret := getenv w "STRAVA_CLIENT_SECRET" in
  if negb (truthy_ostr env_id) || negb (truthy_ostr env_secret)
  then rbind (match config with
              | Some c => Ok c
              | None => load w None
              end) (fun c =>
       Ok (if truthy_ostr env_id then env_id else client_id c,
           if truthy_ostr env_secret then env_secret else client_secret c))
  else Ok (env_id, env_secret).

(* ===================================================================== *)
(** ** client.py: the token lifecycle                                    *)
(* ===================================================================== *)

(** A [StravaClient].  [self.auth] is the object [config.get_profile(profile)]
    returned in [__init__]: it is shared with [self.config], so it is read
    through [self_auth] and written through [update_auth], which resolve the
    profile the same way.  [_client] is the cached [stravalib] client, known
    by the access token it was given. *)
Record StravaClient : Type := mkStravaClient {
  config : Config;
  profile : option string;
  _client : option (option string)
}.

(** [StravaClient(config, profile)] *)
Definition StravaClient_new (c : Config) (p : option string) : StravaClient :=
  mkStravaClient c p None.

Definition self_auth (c : StravaClient) : AuthConfig :=
  get_profile (config c) (profile c).

(** An assignment to fields of [self.auth]. *)
Definition update_auth (f : AuthConfig -> AuthConfig) (c : StravaClient) : StravaClient :=
  let cfg := config c in
  let cfg' :=
    match profile c with
    | Some n =>
        if truthy_str n && dict_mem n (profiles cfg)
        then set_profiles (dict_set n (f (self_auth c)) (profiles cfg)) cfg
        else set_auth (f (auth cfg)) cfg
    | None => set_auth (f (auth cfg)) cfg
    end in
  mkStravaClient cfg' (profile c) (_client c).

Definition set__client (k : option (option string)) (c : StravaClient) : StravaClient :=
  mkStravaClient (config c) (profile c) k.

(** The state a method of the client runs in. *)
Definition ClientState : Type := (World * StravaClient)%type.

Definition in_world {A : Type} (m : M World A) : M ClientState A :=
  fun s => let (r, w) := m (fst s) in (r, (w, snd s)).

Definition tell {S : Type} (onw : (World -> World) -> S -> S) (e : event) : M S unit :=
  modify (onw (emit e)).

Definition on_fst (f : World -> World) (s : ClientState) : ClientState :=
  (f (fst s), snd s).

(** The [client] property. *)
Definition client_property : M ClientState (option string) :=
  fun s =>
    match _client (snd s) with
    | Some k => (Ok k, s)
    | None =>
        let k := if truthy_ostr (access_token (self_auth (snd s)))
                 then access_token (self_auth (snd s)) else None in
        (Ok k, (fst s, set__client (Some k) (snd s)))
    end.

(** [StravaClient.is_authenticated] *)
Definition StravaClient_is_authenticated (c : StravaClient) : bool :=
  is_authenticated (self_auth c).

(** [StravaClient.refresh_token] *)
Definition StravaClient_refresh_token : M ClientState bool :=
  (tell on_fst CallRefreshToken ;;;
   s <- get ;;
   creds <- lift_result (get_client_credentials (fst s) None) ;;
   if negb (truthy_ostr (fst creds)) || negb (truthy_ostr (snd creds))
   then raise MissingCredentialsError
   else if negb (truthy_ostr (refresh_token (self_auth (snd s))))
   then raise (TokenRefreshError "No refresh token available")
   else
     let id := default EmptyString (fst creds) in
     let secret := default EmptyString (snd creds) in
     let rt := default EmptyString (refresh_token (self_auth (snd s))) in
     try_except
       (client_property ;;;
        tell on_fst (StravalibRefresh id secret rt) ;;;
        response <- lift_result (stravalib_refresh (fst s) id secret rt) ;;
        modify (fun s => (fst s, update_auth (fun a =>
          mkAuthConfig (Some (td_access_token response)) (refresh_token a)
                       (expires_at a) (athlete_id a) (scopes a)) (snd s))) ;;;
        modify (fun s => (fst s, update_auth (fun a =>
          mkAuthConfig (access_token a) (Some (td_refresh_token response))
                       (expires_at a) (athlete_id a) (scopes a)) (snd s))) ;;;
        modify (fun s => (fst s, update_auth (fun a =>
          mkAuthConfig (access_token a) (refresh_token a)
                       (Some (td_expires_at response)) (athlete_id a) (scopes a)) (snd s))) ;;;
        modify (fun s => (fst s, set__client None (snd s))) ;;;
        s' <- get ;;
        in_world (save (config (snd s')) None) ;;;
        ret true)
       (fun e => raise (TokenRefreshErrorFrom e)))%monad.

(** [StravaClient.ensure_authenticated] *)
Definition StravaClient_ensure_authenticated : M ClientState unit :=
  (s <- get ;;
   if negb (StravaClient_is_authenticated (snd s))
   then raise AuthenticationError_default
   else if is_expired (now (fst s)) (self_auth (snd s))
           && truthy_ostr (refresh_token (self_auth (snd s)))
        then ok <- StravaClient_refresh_token ;;
             if negb ok
             then raise (TokenRefreshError "Unable to refresh expired token")
             else ret tt
        else ret tt)%monad.

(** [StravaClient.handle_unauthorized]; returning is the signal for the
    caller to retry. *)
Definition StravaClient_handle_unauthorized : M ClientState unit :=
  let fail : M ClientState unit :=
    raise (AuthenticationError "Unauthorized. Your token may have expired."
                               (Some login_hint)) in
  (s <- get ;;
   if truthy_ostr (refresh_token (self_auth (snd s)))
   then try_except (StravaClient_refresh_token ;;; ret tt) (fun _ => fail)
   else fail)%monad.

(** [get_client] *)
Definition get_client (w : World) (c : option Config) (p : option string)
  : result StravaClient :=
  rbind (match c with Some c => Ok c | None => load w None end)
        (fun c => Ok (StravaClient_new c p)).

(* ===================================================================== *)
(** ** decorators.py: the command boundary                               *)
(* ===================================================================== *)

(** The fields of [cli.state] the boundary reads. *)
Record CliState : Type := mkCliState {
  quiet : bool;
  config_path : option string;
  cli_profile : option string
}.

(** The wrapper of [with_client] around a command body [func].
    [cli.state.config_path] is a [str]: when it is set, [Config.load] is
    given a string, on which [exists] is not defined. *)
Definition with_client {A : Type} (st : CliState) (func : M ClientState A) : M World A :=
  fun w =>
    let body : result A * World :=
      if truthy_ostr (config_path st) then (Raise AttributeError, w)
      else match load w None with
           | Ok c =>
               let (r, s) := func (w, StravaClient_new c (cli_profile st)) in (r, fst s)
           | Raise e => (Raise e, w)
           | OutOfModel => (OutOfModel, w)
           end in
    match body with
    | (Raise e, w') =>
        if is_StravaCLIError e
        then let w1 := emit (ErrorLine e) w' in
             let w2 := match exn_hint e with
                       | Some h => if negb (quiet st) then emit (HintLine h) w1 else w1
                       | None => w1
                       end in
             (Raise (Exit (exit_code e)), w2)
        else (Raise e, w')
    | other => other
    end.

(* ===================================================================== *)
(** ** auth.py: the OAuth authorization flow                             *)
(* ===================================================================== *)

Record AuthResult : Type := mkAuthResult {
  ar_access_token : string;
  ar_refresh_token : string;
  ar_expires_at : Z;
  ar_athlete_id : Z;
  ar_scopes : list string
}.

Definition DEFAULT_SCOPES : list string :=
  ["read"; "read_all"; "profile:read_all"; "activity:read";
   "activity:read_all"; "activity:write"].

(** [OAuthCallbackHandler.do_GET], on the parsed query of the request; the
    page sent back does not depend on anything but the fields set here. *)
Definition do_GET (params : dict (list string)) (h : Handler) : result Handler :=
  if dict_mem "error" params then
    match dict_get "error" params with
    | Some (x :: _) => Ok (mkHandler (auth_code h) (state h) (Some x))
    | _ => Raise IndexError
    end
  else if dict_mem "code" params then
    match dict_get "code" params with
    | Some (x :: _) =>
        match dict_get "state" params with
        | Some (y :: _) => Ok (mkHandler (Some x) (Some y) (error h))
        | Some [] => Raise IndexError
        | None => Ok (mkHandler (Some x) None (error h))
        end
    | _ => Raise IndexError
    end
  else Ok h.

(** [start_callback_server]: the class attributes are reset. *)
Definition start_callback_server (w : World) : World :=
  set_handler (mkHandler None None None) w.

(** [server.handle_request()] in its thread, joined by the caller: at most
    one request is handled; an exception in the handler stays in the
    thread. *)
Definition handle_request (w : World) : World :=
  match callback w with
  | Some params =>
      match do_GET params (handler w) with
      | Ok h => set_handler h w
      | _ => w
      end
  | None => w
  end.

(** The parameters [build_auth_url] gives to [urlencode]. *)
Definition build_auth_url (client_id redirect_uri state : string)
  (scopes : option (list string)) : dict string :=
  [("client_id", client_id); ("redirect_uri", redirect_uri);
   ("response_type", "code"); ("approval_prompt", "auto");
   ("scope", String.concat "," (default DEFAULT_SCOPES scopes));
   ("state", state)].

(** [exchange_code_for_token] *)
Definition exchange_code_for_token (client_id client_secret code : string)
  : M World AuthResult :=
  (tell id (TokenPost (AuthorizationCode client_id client_secret code)) ;;;
   w <- get ;;
   data <- lift_result (http_token w (AuthorizationCode client_id client_secret code)) ;;
   match td_athlete data with
   | None => raise (KeyError "athlete")
   | Some athlete =>
       ret (mkAuthResult (td_access_token data) (td_refresh_token data)
              (td_expires_at data) athlete
              (if truthy_ostr (td_scope data)
               then split_on "," (default EmptyString (td_scope data))
               else []))
   end)%monad.

(** [refresh_access_token] of auth.py *)
Definition refresh_access_token (client_id client_secret token : string)
  : M World AuthResult :=
  (tell id (TokenPost (RefreshGrant client_id client_secret token)) ;;;
   w <- get ;;
   data <- lift_result (http_token w (RefreshGrant client_id client_secret token)) ;;
   ret (mkAuthResult (td_access_token data) (td_refresh_token data)
          (td_expires_at data) 0 []))%monad.

(** White space that [str.strip] removes, within ASCII. *)
Definition is_space (c : ascii) : bool :=
  let n := Toml.code c in
  (n =? 32) || ((9 <=? n) && (n <=? 13)) || ((28 <=? n) && (n <=? 31)).

Fixpoint lstrip (s : string) : string :=
  match s with
  | String c r => if is_space c then lstrip r else s
  | EmptyString => s
  end.

Fixpoint rstrip (s : string) : string :=
  match s with
  | String c r =>
      match rstrip r with
      | EmptyString => if is_space c then EmptyString else String c EmptyString
      | r' => String c r'
      end
  | EmptyString => EmptyString
  end.

Definition strip (s : string) : string := rstrip (lstrip s).

(** [input(prompt)]: the next line, or an interrupt. *)
Definition input : M World (option string) :=
  fun w => match stdin w with
           | l :: rest => (Ok l, set_stdin rest w)
           | [] => (Ok None, w)
           end.

Definition setup_banner : list string :=
  [String newline "No Strava API credentials found.";
   String newline "To authenticate, you need a Strava API application:";
   "  1. Go to https://www.strava.com/settings/api";
   "  2. Create an application";
   "  3. Set 'Authorization Callback Domain' to: localhost";
   "  4. Note your Client ID and Client Secret";
   EmptyString].

Definition tell_all (l : list string) : M World unit :=
  modify (fun w => fold_left (fun w t => emit (Stderr t) w) l w).

(** [prompt_for_credentials] *)
Definition prompt_for_credentials : M World (option (string * string)) :=
  (tell_all setup_banner ;;;
   l1 <- input ;;
   match l1 with
   | None => tell id (Stderr (String newline "Cancelled.")) ;;; ret None
   | Some l1 =>
       if negb (truthy_str (strip l1))
       then tell id (Stderr "error: Client ID is required") ;;; ret None
       else
         l2 <- input ;;
         match l2 with
         | None => tell id (Stderr (String newline "Cancelled.")) ;;; ret None
         | Some l2 =>
             if negb (truthy_str (strip l2))
             then tell id (Stderr "error: Client Secret is required") ;;; ret None
             else ret (Some (strip l1, strip l2))
         end
   end)%monad.

(** [str(p)] for a path. *)
Definition Path_str (p : Path) : string :=
  if fst p then "/" +:+ String.concat "/" (snd p)
  else match snd p with
       | [] => "."
       | _ :: _ => String.concat "/" (snd p)
       end.

(** [handler.state != state] *)
Definition state_differs (received : option string) (expected : string) : bool :=
  match received with
  | Some s => negb (String.eqb s expected)
  | None => true
  end.

(** The end of [interactive_login], from [server.server_close()] on. *)
Definition finish_login (client_id client_secret expected : string)
  : M World (option AuthResult) :=
  (w <- get ;;
   let h := handler w in
   if truthy_ostr (error h) then
     tell id (Stderr ("error: Authorization failed: " +:+ default EmptyString (error h))) ;;;
     ret None
   else if negb (truthy_ostr (auth_code h)) then
     tell id (Stderr "error: No authorization code received (timeout)") ;;;
     ret None
   else if state_differs (state h) expected then
     tell id (Stderr "error: State mismatch - possible CSRF attack") ;;;
     ret None
   else
     tell id (Stderr "Authorization code received, exchanging for token...") ;;;
     try_except
       (result <- exchange_code_for_token client_id client_secret
                    (default EmptyString (auth_code h)) ;;
        tell id (Stderr "Authentication successful!") ;;;
        ret (Some result))
       (fun e => tell id (StderrExn "error: Token exchange failed: " e) ;;; ret None))%monad.

(** [interactive_login], once the client credentials are known. *)
Definition login_flow (client_id client_secret : string)
  (scopes : option (list string)) (port : Z) : M World (option AuthResult) :=
  (w <- get ;;
   let redirect_uri := "http://localhost:" +:+ str_of_int port +:+ "/callback" in
   let expected := fresh_state w in
   let auth_url := build_auth_url client_id redirect_uri expected scopes in
   tell id (Stderr "Opening browser for Strava authorization...") ;;;
   tell id (Stderr (String newline "If browser doesn't open, visit:")) ;;;
   tell id (StderrUrl auth_url) ;;;
   modify start_callback_server ;;;
   tell id (OpenBrowser auth_url) ;;;
   tell id (Stderr (String newline "Waiting for authorization...")) ;;;
   modify handle_request ;;;
   finish_login client_id client_secret expected)%monad.

(** [interactive_login] *)
Definition interactive_login (scopes : option (list string)) (port : Z)
  : M World (option AuthResult) :=
  (w <- get ;;
   config <- lift_result (load w None) ;;
   creds <- lift_result (get_client_credentials w (Some config)) ;;
   if negb (truthy_ostr (fst creds)) || negb (truthy_ostr (snd creds))
   then
     result <- prompt_for_credentials ;;
     match result with
     | None => ret None
     | Some (i, s) =>
         save (set_client (Some i) (Some s) config) None ;;;
         w' <- get ;;
         tell id (Stderr (String newline "Credentials saved to "
                          +:+ Path_str (get_config_path w'))) ;;;
         login_flow i s scopes port
     end
   else login_flow (default EmptyString (fst creds))
                   (default EmptyString (snd creds)) scopes port)%monad.

(* ===================================================================== *)
(** ** commands/auth.py: the [refresh] command                           *)
(* ===================================================================== *)

(** [refresh]; it returns the [config] object it worked on, which the
    command itself drops. *)
Definition refresh_command : M World Config :=
  (w <- get ;;
   config <- lift_result (load w None) ;;
   if negb (truthy_ostr (refresh_token (auth config)))
   then tell id (Stderr "error: No refresh token available. Run 'strava auth login' first.") ;;;
        raise (Exit 2)
   else
     creds <- lift_result (get_client_credentials w None) ;;
     if negb (truthy_ostr (fst creds)) || negb (truthy_ostr (snd creds))
     then tell id (Stderr "error: STRAVA_CLIENT_ID and STRAVA_CLIENT_SECRET environment variables required") ;;;
          raise (Exit 2)
     else
       try_except
         (result <- refresh_access_token (default EmptyString (fst creds))
                      (default EmptyString (snd creds))
                      (default EmptyString (refresh_token (auth config))) ;;
          let config' :=
            set_auth (mkAuthConfig (Some (ar_access_token result))
                        (Some (ar_refresh_token result))
                        (Some (ar_expires_at result))
                        (athlete_id (auth config)) (scopes (auth config))) config in
          save config' None ;;;
          tell id (EmitResult (ar_expires_at result)) ;;;
          ret config')
         (fun e => tell id (StderrExn "error: Token refresh failed: " e) ;;;
                   raise (Exit 1)))%monad.

(* ===================================================================== *)
(** ** Concrete worlds and documents used as instances                   *)
(* ===================================================================== *)

Definition ex_world : World :=
  mkWorld ∅ (true, ["home"; "u"]) 18 (mkFS ∅ ∅) 1%Q
          (fun _ _ _ => Raise (EndpointError "offline"))
          (fun _ => Raise (EndpointError "offline"))
          None "st" [] (mkHandler None None None) [].

Definition ex_config : Config :=
  mkConfig (mkAuthConfig (Some "tok") (Some "ref") (Some 123) (Some 42) ["read"])
           (mkDefaultsConfig "json" 30)
           [("work", mkAuthConfig (Some "t2") None (Some (-5)) (Some 7) [])]
           (Some "12345") (Some "shh").

(** The number of calls of [StravaClient.refresh_token] in a trace. *)
Definition refresh_attempts (tr : list event) : nat :=
  length (List.filter (fun e => match e with CallRefreshToken => true | _ => false end) tr).



(** A client whose token is expired (the clock of [ex_world] shows 1) and
    that has no refresh token. *)
Definition ex_expired_client : StravaClient :=
  StravaClient_new
    (mkConfig (mkAuthConfig (Some "tok") None (Some 0) None [])
              DefaultsConfig_new [] None None) None.

(** A document with a profile whose name is the empty string. *)
Definition ex_config_empty_name : Config :=
  mkConfig (mkAuthConfig (Some "tok") (Some "ref") (Some 123) (Some 42) ["read"])
           DefaultsConfig_new
           [(EmptyString, mkAuthConfig (Some "t2") None None None [])] None None.

(** A world with client credentials in the environment and a token
    endpoint that answers. *)
Definition ex_token_data : TokenData :=
  mkTokenData "new_access" "new_refresh" 2000 (Some 42) (Some "read,activity:read").

Definition ex_online_world : World :=
  mkWorld (<["STRAVA_CLIENT_ID" := "12345"]> (<["STRAVA_CLIENT_SECRET" := "shh"]> ∅))
          (true, ["home"; "u"]) 18 (mkFS ∅ ∅) 1%Q
          (fun _ _ _ => Ok ex_token_data) (fun _ => Ok ex_token_data)
          None "st" [] (mkHandler None None None) [].

(** [w] after the text of its configuration file has been replaced. *)
Definition put_text (text : string) (w : World) : World :=
  match write_text (umask w) (get_config_path w) text (fs w) with
  | Ok f => set_fs f w
  | _ => w
  end.

(** A world whose configuration file is not TOML: a table header that is
    never closed. *)
Definition ex_malformed_world : World :=
  put_text "[auth" (snd (save ex_config None ex_world)).

(** A world whose file holds [ex_config] (client id 12345) while the
    environment names another client id and an access token. *)
Definition ex_env_world : World :=
  snd (save ex_config None
         (mkWorld (<["STRAVA_CLIENT_ID" := "222"]> (<["STRAVA_ACCESS_TOKEN" := "envtok"]> ∅))
                  (true, ["home"; "u"]) 18 (mkFS ∅ ∅) 1%Q
                  (fun _ _ _ => Raise (EndpointError "offline"))
                  (fun _ => Raise (EndpointError "offline"))
                  None "st" [] (mkHandler None None None) [])).




(* ===================================================================== *)
(** ** Save followed by load: what is written and what comes back        *)
(* ===================================================================== *)

(** Digits and the minus sign. *)
Definition is_numeral (c : ascii) : bool :=
  let n := Toml.code c in ((48 <=? n) && (n <=? 57)) || (n =? 45).

(** Printable ASCII. *)
Definition is_print (c : ascii) : bool :=
  let n := Toml.code c in (32 <=? n) && (n <=? 126).

(** Absent-versus-empty normalization: [Config.save] writes a field only
    when it is truthy, so an empty string and a zero come back absent. *)
Definition norm_str (v : option string) : option string :=
  if truthy_ostr v then v else None.

Definition norm_int (v : option Z) : option Z :=
  if truthy_oint v then v else None.

Definition normalize_auth (a : AuthConfig) : AuthConfig :=
  mkAuthConfig (norm_str (access_token a)) (norm_str (refresh_token a))
               (norm_int (expires_at a)) (norm_int (athlete_id a)) (scopes a).

(** A record without its scopes. *)
Definition without_scopes (a : AuthConfig) : AuthConfig :=
  mkAuthConfig (access_token a) (refresh_token a) (expires_at a) (athlete_id a) [].

(** The document [Config._load_from_file] builds from the file that
    [Config.save] wrote for [c]. *)
Definition reloaded (c : Config) : Config :=
  mkConfig (normalize_auth (auth c)) (defaults c)
           (map (fun np => (fst np, without_scopes (normalize_auth (snd np)))) (profiles c))
           (norm_str (client_id c)) (norm_str (client_secret c)).

(** Strings that [Config.save] can put between double quotes as they are:
    printable ASCII without double quote or backslash. *)
Definition plain_opt (v : option string) : bool :=
  match v with Some s => Toml.plain s | None => true end.

(** What [toml_writable] asks of one profile. *)
Definition profile_writable (np : string * AuthConfig) : bool :=
  Toml.bare_key (fst np) && plain_opt (access_token (snd np))
  && plain_opt (refresh_token (snd np)).

(** A document all of whose written strings are plain and whose profile
    names are bare keys; the names are distinct, as the keys of a dictionary
    are. *)
Definition toml_writable (c : Config) : bool :=
  plain_opt (client_id c) && plain_opt (client_secret c)
  && plain_opt (access_token (auth c)) && plain_opt (refresh_token (auth c))
  && forallb Toml.plain (scopes (auth c))
  && Toml.plain (format (defaults c))
  && forallb profile_writable (profiles c)
  && bool_decide (NoDup (keys (profiles c))).

(** The entries a section of the file stands for. *)
Definition str_entry (key : string) (v : option string) : Toml.table :=
  if truthy_ostr v then [(key, Toml.VStr (default EmptyString v))] else [].

Definition int_entry (key : string) (v : option Z) : Toml.table :=
  if truthy_oint v then [(key, Toml.VInt (default 0 v))] else [].

Definition strs_entry (key : string) (l : list string) : Toml.table :=
  if truthy_list l then [(key, Toml.VStrs l)] else [].

Definition client_table (c : Config) : Toml.table :=
  str_entry "id" (client_id c) ++ str_entry "secret" (client_secret c).

Definition auth_table (a : AuthConfig) : Toml.table :=
  str_entry "access_token" (access_token a) ++ str_entry "refresh_token" (refresh_token a)
  ++ int_entry "expires_at" (expires_at a) ++ int_entry "athlete_id" (athlete_id a)
  ++ strs_entry "scopes" (scopes a).

Definition defaults_table (d : DefaultsConfig) : Toml.table :=
  [("format", Toml.VStr (format d)); ("limit", Toml.VInt (limit d))].

Definition profile_table (a : AuthConfig) : Toml.table :=
  str_entry "access_token" (access_token a) ++ str_entry "refresh_token" (refresh_token a)
  ++ int_entry "expires_at" (expires_at a) ++ int_entry "athlete_id" (athlete_id a).

(** The [profiles] table, which exists once a profile has been declared. *)
Definition profiles_part (p : Toml.table) : Toml.table :=
  match p with
  | [] => []
  | _ :: _ => [("profiles", Toml.VTab p)]
  end.

Definition profile_item (np : string * AuthConfig) : string * Toml.value :=
  (fst np, Toml.VTab (profile_table (snd np))).

(** The dictionary [tomllib] returns for the file written for [c]. *)
Definition saved_data (c : Config) : Toml.table :=
  (if truthy_ostr (client_id c) || truthy_ostr (client_secret c)
   then [("client", Toml.VTab (client_table c))] else [])
  ++ [("auth", Toml.VTab (auth_table (auth c)));
      ("defaults", Toml.VTab (defaults_table (defaults c)))]
  ++ profiles_part (map profile_item (profiles c)).

(** A path leads to a table that can be updated in place: [ctx T] is the
    document in which the table at [path] is [T]. *)
Definition focused (path : list string) (ctx : Toml.table -> Toml.table) : Prop :=
  forall f T T', f T = Some T' -> Toml.at_path path f (ctx T) = Some (ctx T').

(** Lines that stand for the entries of a table, one [key = value] each. *)
Definition renders (lines : list string) (entries : Toml.table) : Prop :=
  Forall2 (fun l kv => Toml.parse_line l = Toml.KeyVal (fst kv) (snd kv)) lines entries.

(** A line of printable ASCII characters: it holds no newline. *)
Definition printable (s : string) : bool := Toml.all_chars is_print s.


(* ===================================================================== *)
(** ** Further instances                                                 *)
(* ===================================================================== *)

(** A client whose token is expired and that has a refresh token. *)
Definition ex_stale_client : StravaClient :=
  StravaClient_new
    (mkConfig (mkAuthConfig (Some "tok") (Some "ref") (Some 0) (Some 42) ["read"])
              DefaultsConfig_new [] None None) None.

(** A world with client credentials in the environment whose token endpoint
    cannot be reached. *)
Definition ex_offline_world : World :=
  mkWorld (<["STRAVA_CLIENT_ID" := "12345"]> (<["STRAVA_CLIENT_SECRET" := "shh"]> ∅))
          (true, ["home"; "u"]) 18 (mkFS ∅ ∅) 1%Q
          (fun _ _ _ => Raise (EndpointError "offline"))
          (fun _ => Raise (EndpointError "offline"))
          None "st" [] (mkHandler None None None) [].

(** A world whose token endpoint answers but in which a file stands where
    the directory [~/.config] is needed. *)
Definition ex_blocked_world : World :=
  mkWorld (<["STRAVA_CLIENT_ID" := "12345"]> (<["STRAVA_CLIENT_SECRET" := "shh"]> ∅))
          (true, ["home"; "u"]) 18
          (mkFS (<[(true, ["home"]) := 493]> (<[(true, ["home"; "u"]) := 493]> ∅))
                (<[(true, ["home"; "u"; ".config"]) := (EmptyString, 420)]> ∅)) 1%Q
          (fun _ _ _ => Ok ex_token_data) (fun _ => Ok ex_token_data)
          None "st" [] (mkHandler None None None) [].

(** A world with an access token in the environment and no file. *)
Definition ex_token_env_world : World :=
  mkWorld (<["STRAVA_ACCESS_TOKEN" := "envtok"]> ∅)
          (true, ["home"; "u"]) 18 (mkFS ∅ ∅) 1%Q
          (fun _ _ _ => Raise (EndpointError "offline"))
          (fun _ => Raise (EndpointError "offline"))
          None "st" [] (mkHandler None None None) [].

(** A client that works on the profile [work] of [ex_config]. *)
Definition ex_profile_client : StravaClient :=
  StravaClient_new ex_config (Some "work").

(* ===================================================================== *)
(** * Properties                                                         *)
(* ===================================================================== *)

Section DictFacts.
Context {V : Type}.
Implicit Types (d : dict V) (k : string) (v : V).

Lemma dict_get_set_eq k v d : dict_get k (dict_set k v d) = Some v.
Proof.
  induction d as [|[k' v'] d IH]; simpl.
  - now rewrite String.eqb_refl.
  - destruct (String.eqb k k') eqn:E; simpl; rewrite E; auto.
Qed.

Lemma dict_get_set_ne k k' v d :
  k <> k' -> dict_get k' (dict_set k v d) = dict_get k' d.
Proof.
  intros Hne. induction d as [|[k0 v0] d IH]; simpl.
  - destruct (String.eqb_spec k' k); congruence.
  - destruct (String.eqb_spec k k0) as [->|]; simpl.
    + destruct (String.eqb_spec k' k0); congruence.
    + now rewrite IH.
Qed.

Lemma keys_dict_set_mem k v d :
  dict_mem k d = true -> keys (dict_set k v d) = keys d.
Proof.
  unfold dict_mem. induction d as [|[k0 v0] d IH]; simpl; [discriminate|].
  destruct (String.eqb_spec k k0) as [->|]; simpl; [reflexivity|].
  intros H. now rewrite IH.
Qed.
End DictFacts.

(** C6. [is_authenticated] holds exactly when [access_token] is present,
    whatever the other fields are, and [is_expired] holds exactly when
    [expires_at] is absent or is at or before the current time. *)
Theorem auth_predicates_spec (now : Q) (a : AuthConfig) :
  (is_authenticated a = true <-> access_token a <> None) /\
  (forall r e i s,
      is_authenticated (mkAuthConfig (access_token a) r e i s) = is_authenticated a) /\
  (is_expired now a = true <->
     expires_at a = None \/
     exists e, expires_at a = Some e /\ (inject_Z e <= now)%Q) /\
  (is_expired now a = false <->
     exists e, expires_at a = Some e /\ (now < inject_Z e)%Q).
Proof.
  unfold is_authenticated, is_expired. repeat split.
  - destruct (access_token a); intros; congruence.
  - destruct (access_token a); intros; congruence.
  - destruct (expires_at a) as [e|]; [|auto].
    intros H. right. exists e. split; [reflexivity|]. now apply Qle_bool_iff.
  - intros [H|(e & H & Hle)]; rewrite H; [reflexivity|]. now apply Qle_bool_iff.
  - destruct (expires_at a) as [e|]; [|discriminate].
    intros H. exists e. split; [reflexivity|].
    apply Qnot_le_lt. intros Hle. apply Qle_bool_iff in Hle. congruence.
  - intros (e & -> & Hlt). destruct (Qle_bool (inject_Z e) now) eqn:E; [|reflexivity].
    apply Qle_bool_iff in E. exfalso. eapply Qlt_not_le; eauto.
Qed.

(** ** The file system and [Config.save] *)

Lemma is_dir_not_file f p : is_dir f p = true -> files f !! p = None.
Proof.
  unfold is_dir, is_file. destruct (files f !! p); [discriminate|reflexivity].
Qed.

Lemma is_dir_insert f p m :
  files f !! p = None -> is_dir (mkFS (<[p := m]> (dirs f)) (files f)) p = true.
Proof.
  intros H. unfold is_dir, is_file. cbn [files dirs]. rewrite H, lookup_insert_eq.
  now destruct (snd p).
Qed.

Lemma mkdir_parents_is_dir fuel um p f f' :
  mkdir_parents fuel um p f = Ok f' -> is_dir f' p = true.
Proof.
  assert (Hmk : forall g g', os_mkdir um p g = Ok g' -> is_dir g' p = true).
  { intros g g'. unfold os_mkdir.
    destruct (path_exists g p) eqn:Hex; [discriminate|].
    destruct (is_file g (parent p)); [discriminate|].
    destruct (negb (is_dir g (parent p))); [discriminate|].
    intros [= <-]. unfold path_exists in Hex. apply orb_false_iff in Hex as [Hf _].
    apply is_dir_insert. unfold is_file in Hf. now destruct (files g !! p). }
  assert (Hex : forall e g g', mkdir_exist_ok e p g = Ok g' -> is_dir g' p = true).
  { intros e g g'. unfold mkdir_exist_ok. destruct (is_dir g p) eqn:E; [|discriminate].
    now intros [= <-]. }
  destruct fuel; simpl.
  - destruct (os_mkdir um p f) as [g|e|] eqn:E; [intros [= <-]; eauto| |discriminate].
    destruct e; eauto. destruct kind; eauto; discriminate.
  - destruct (os_mkdir um p f) as [g|e|] eqn:E; [intros [= <-]; eauto| |discriminate].
    destruct e; eauto. destruct kind; eauto.
    destruct (snd p) eqn:Hp; [discriminate|].
    destruct (mkdir_parents fuel um (parent p) f) as [f1|e1|]; try discriminate.
    destruct (os_mkdir um p f1) as [g|e|] eqn:E1; [intros [= <-]; eauto| |discriminate].
    destruct e; eauto. destruct kind; eauto; discriminate.
Qed.

(** What a completed [Config.save] leaves behind. *)
Lemma save_ok_inv (c : Config) (path : option Path) (w w' : World) :
  save c path w = (Ok tt, w') ->
  let cp := default (get_config_path w) path in
  exists f1 m,
    w' = set_fs (mkFS (<[parent cp := S_IRWXU]> (dirs f1))
                      (<[cp := (save_text c, Z.lor S_IRUSR S_IWUSR)]>
                         (<[cp := (save_text c, m)]> (files f1)))) w /\
    files f1 !! parent cp = None /\ cp <> parent cp.
Proof.
  unfold save, bind, get, fs_op. cbn zeta.
  set (cp := default (get_config_path w) path).
  destruct (mkdir_parents _ _ (parent cp) (fs w)) as [f1| |] eqn:Hmk; try discriminate.
  apply mkdir_parents_is_dir in Hmk. cbn [fs set_fs umask].
  unfold chmod at 1. rewrite (is_dir_not_file _ _ Hmk), Hmk. cbn [fs set_fs umask].
  set (f2 := mkFS (<[parent cp:=S_IRWXU]> (dirs f1)) (files f1)).
  assert (Hd2 : is_dir f2 (parent cp) = true).
  { apply is_dir_insert. now apply is_dir_not_file. }
  assert (Hne : forall f3, write_text (umask w) cp (save_text c) f2 = Ok f3 ->
                 cp <> parent cp /\
                 exists m, f3 = mkFS (dirs f2) (<[cp := (save_text c, m)]> (files f2))).
  { intros f3. unfold write_text. destruct (files f2 !! cp) as [[t m]|] eqn:Hf.
    - intros [= <-]. split; [|eauto].
      intros Heq. rewrite Heq in Hf. now rewrite (is_dir_not_file _ _ Hd2) in Hf.
    - destruct (is_dir f2 cp) eqn:Hd; [discriminate|].
      destruct (is_file f2 (parent cp)); [discriminate|].
      rewrite Hd2. intros [= <-]. split; [|eauto].
      intros Heq. rewrite Heq in Hd. congruence. }
  destruct (write_text (umask w) cp (save_text c) f2) as [f3| |] eqn:Hw; try discriminate.
  destruct (Hne f3 eq_refl) as (Hcp & m & ->). cbn [fs set_fs].
  unfold chmod. cbn [files dirs]. rewrite lookup_insert_eq. cbn [fs set_fs].
  intros [= <-]. exists f1, m. split; [reflexivity|].
  split; [now apply is_dir_not_file|exact Hcp].
Qed.

(** The file [Config.save] wrote holds the text of the document. *)
Lemma save_writes (c : Config) (path : option Path) (w w' : World) :
  save c path w = (Ok tt, w') ->
  read_file (default (get_config_path w) path) (fs w') = Ok (save_text c).
Proof.
  intros H. destruct (save_ok_inv _ _ _ _ H) as (f1 & m & -> & _ & _).
  unfold read_file. cbn [fs set_fs files]. now rewrite lookup_insert_eq.
Qed.

(** [Config.save] completes whenever the directory exists and the path of
    the file is not a directory. *)
Lemma save_completes (c : Config) (path : option Path) (w : World) :
  is_dir (fs w) (parent (default (get_config_path w) path)) = true ->
  is_dir (fs w) (default (get_config_path w) path) = false ->
  exists w', save c path w = (Ok tt, w').
Proof.
  set (cp := default (get_config_path w) path). intros Hp Hc.
  unfold save, bind, get, fs_op. fold cp.
  assert (Hmk : forall n, mkdir_parents n (umask w) (parent cp) (fs w) = Ok (fs w)).
  { intros n. assert (H : os_mkdir (umask w) (parent cp) (fs w) = Raise (OSError FileExistsError)).
    { unfold os_mkdir, path_exists. rewrite Hp. now rewrite orb_true_r. }
    destruct n; simpl; rewrite H; unfold mkdir_exist_ok; now rewrite Hp. }
  rewrite Hmk. cbn [fs set_fs umask].
  unfold chmod at 1. rewrite (is_dir_not_file _ _ Hp), Hp. cbn [fs set_fs umask].
  set (f2 := mkFS (<[parent cp:=S_IRWXU]> (dirs (fs w))) (files (fs w))).
  assert (Hd2 : is_dir f2 (parent cp) = true).
  { apply is_dir_insert. now apply is_dir_not_file. }
  assert (Hw : exists m, write_text (umask w) cp (save_text c) f2
                 = Ok (mkFS (dirs f2) (<[cp := (save_text c, m)]> (files f2)))).
  { unfold write_text. destruct (files f2 !! cp) as [[t m]|] eqn:Hf; [eauto|].
    assert (Hne : cp <> parent cp) by (intros Heq; rewrite <- Heq in Hp; congruence).
    assert (Hd : is_dir f2 cp = false).
    { unfold is_dir, is_file in *. cbn [files dirs f2] in *.
      destruct (files (fs w) !! cp); [reflexivity|]. cbn in *.
      destruct (snd cp); [discriminate|]. now rewrite lookup_insert_ne. }
    rewrite Hd, Hd2. unfold is_file. cbn [files f2]. rewrite (is_dir_not_file _ _ Hp). eauto. }
  destruct Hw as [m ->]. cbn [fs set_fs]. unfold chmod. cbn [files dirs].
  rewrite lookup_insert_eq. eauto.
Qed.

(** C9. Whenever [Config.save] completes, the configuration file has mode
    exactly 0o600 (384: owner read and write, no group or other bit) and its
    directory has mode exactly 0o700 (448): both are set by [chmod] on every
    save, whatever the modes were before. *)
Theorem save_sets_owner_only_modes (c : Config) (path : option Path) (w w' : World) :
  save c path w = (Ok tt, w') ->
  mode_of (fs w') (default (get_config_path w) path) = Some 384 /\
  mode_of (fs w') (parent (default (get_config_path w) path)) = Some 448 /\
  Z.land 384 63 = 0 /\ Z.land 448 63 = 0.
Proof.
  intros H. destruct (save_ok_inv _ _ _ _ H) as (f1 & m & -> & Hp & Hne).
  unfold mode_of. cbn [fs set_fs files dirs].
  rewrite lookup_insert_eq, !lookup_insert_ne, Hp, lookup_insert_eq by exact Hne.
  repeat split; reflexivity.
Qed.

Lemma save_sets_owner_only_modes_witness :
  mode_of (fs (snd (save ex_config None ex_world))) (get_config_path ex_world) = Some 384 /\
  mode_of (fs (snd (save ex_config None ex_world))) (parent (get_config_path ex_world)) = Some 448 /\
  Z.land 384 63 = 0 /\ Z.land 448 63 = 0.
Proof.
  apply (save_sets_owner_only_modes ex_config None ex_world (snd (save ex_config None ex_world))).
  vm_compute. reflexivity.
Defined.

(** ** The token lifecycle *)

Lemma set_fs_set_fs f g w : set_fs f (set_fs g w) = set_fs f w.
Proof. reflexivity. Qed.

Lemma fs_op_frame op w : exists f, snd (fs_op op w) = set_fs f w.
Proof.
  unfold fs_op. destruct (op (fs w)); simpl; eauto; exists (fs w); now destruct w.
Qed.

Lemma save_frame c path w : exists f, snd (save c path w) = set_fs f w.
Proof.
  unfold save, bind, get.
  repeat match goal with
  | |- context [fs_op ?op ?w0] =>
      let H := fresh "H" in let f := fresh "f" in let r := fresh "r" in
      destruct (fs_op_frame op w0) as [f H];
      destruct (fs_op op w0) as [r ?]; simpl in H; subst; destruct r; simpl
  end; eauto.
Qed.

Lemma save_trace c path w : trace (snd (save c path w)) = trace w.
Proof. destruct (save_frame c path w) as [f ->]. reflexivity. Qed.

Lemma dict_mem_set {V : Type} k (v : V) d : dict_mem k (dict_set k v d) = true.
Proof. unfold dict_mem. now rewrite dict_get_set_eq. Qed.

Lemma dict_set_set {V : Type} k (v v' : V) d :
  dict_set k v' (dict_set k v d) = dict_set k v' d.
Proof.
  induction d as [|[k0 v0] d IH]; simpl.
  - now rewrite String.eqb_refl.
  - destruct (String.eqb k k0) eqn:E; simpl; rewrite E; [reflexivity|now rewrite IH].
Qed.

Lemma self_auth_update_auth f c : self_auth (update_auth f c) = f (self_auth c).
Proof.
  unfold update_auth, self_auth at 1, get_profile. cbn [config profile].
  destruct (profile c) as [n|] eqn:Hp.
  - destruct (truthy_str n && dict_mem n (profiles (config c))) eqn:E;
      cbn [profiles set_profiles set_auth auth].
    + apply andb_true_iff in E as [Ht Hm].
      now rewrite Ht, dict_mem_set, dict_get_set_eq.
    + rewrite E. unfold self_auth, get_profile. now rewrite Hp, E.
  - unfold self_auth, get_profile. now rewrite Hp.
Qed.

Lemma update_auth_compose f g c :
  update_auth g (update_auth f c) = update_auth (fun a => g (f a)) c.
Proof.
  pose proof (self_auth_update_auth f c) as Hs.
  unfold update_auth at 1. rewrite Hs. unfold update_auth.
  cbn [config profile _client].
  destruct (profile c) as [n|]; [|reflexivity].
  destruct (truthy_str n && dict_mem n (profiles (config c))) eqn:E;
    cbn [profiles set_profiles set_auth auth defaults client_id client_secret].
  - apply andb_true_iff in E as [Ht Hm].
    now rewrite Ht, dict_mem_set, dict_set_set.
  - now rewrite E.
Qed.

(** The new credential record after a successful refresh. *)
Lemma refresh_token_run (w : World) (c : StravaClient) :
  StravaClient_refresh_token (w, c) =
  let w1 := emit CallRefreshToken w in
  match get_client_credentials w None with
  | Ok creds =>
      if negb (truthy_ostr (fst creds)) || negb (truthy_ostr (snd creds))
      then (Raise MissingCredentialsError, (w1, c))
      else if negb (truthy_ostr (refresh_token (self_auth c)))
      then (Raise (TokenRefreshError "No refresh token available"), (w1, c))
      else
        let id := default EmptyString (fst creds) in
        let secret := default EmptyString (snd creds) in
        let rt := default EmptyString (refresh_token (self_auth c)) in
        let c1 := snd (snd (client_property (w1, c))) in
        let w2 := emit (StravalibRefresh id secret rt) w1 in
        match stravalib_refresh w id secret rt with
        | Ok resp =>
            let c2 := set__client None (update_auth (fun a =>
                        mkAuthConfig (Some (td_access_token resp))
                          (Some (td_refresh_token resp)) (Some (td_expires_at resp))
                          (athlete_id a) (scopes a)) c1) in
            match save (config c2) None w2 with
            | (Ok _, w3) => (Ok true, (w3, c2))
            | (Raise e, w3) => (Raise (TokenRefreshErrorFrom e), (w3, c2))
            | (OutOfModel, w3) => (OutOfModel, (w3, c2))
            end
        | Raise e => (Raise (TokenRefreshErrorFrom e), (w2, c1))
        | OutOfModel => (OutOfModel, (w2, c1))
        end
  | Raise e => (Raise e, (w1, c))
  | OutOfModel => (OutOfModel, (w1, c))
  end.
Proof.
  unfold StravaClient_refresh_token, bind, tell, modify, get, lift_result, raise, on_fst.
  cbn [fst snd].
  change (get_client_credentials (emit CallRefreshToken w) None)
    with (get_client_credentials w None).
  destruct (get_client_credentials w None) as [creds| |]; try reflexivity.
  cbn zeta.
  destruct (negb (truthy_ostr (fst creds)) || negb (truthy_ostr (snd creds))); [reflexivity|].
  destruct (negb (truthy_ostr (refresh_token (self_auth c)))); [reflexivity|].
  unfold try_except, bind, modify, get, lift_result, raise, ret, in_world.
  destruct (client_property (emit CallRefreshToken w, c)) as [r [w1 c1]] eqn:Hcp.
  assert (Hr : exists k, r = Ok k /\ w1 = emit CallRefreshToken w).
  { unfold client_property in Hcp. cbn [fst snd] in Hcp.
    destruct (_client c); injection Hcp as <- <- <-; eauto. }
  destruct Hr as (k & -> & ->). cbn [fst snd].
  change (stravalib_refresh (emit CallRefreshToken w)) with (stravalib_refresh w).
  destruct (stravalib_refresh w _ _ _) as [resp| |]; try reflexivity.
  cbn [fst snd].
  rewrite !update_auth_compose.
  cbn [access_token refresh_token expires_at athlete_id scopes].
  match goal with |- context [save ?a None ?b] =>
    destruct (save a None b) as [[[]| |] w3]; reflexivity
  end.
Qed.

(** C1 does not hold as stated: with an access token, an expiry in the past
    and no refresh token, [ensure_authenticated] returns normally. *)
Lemma ensure_authenticated_no_refresh_counterexample :
  is_authenticated (self_auth ex_expired_client) = true /\
  is_expired (now ex_world) (self_auth ex_expired_client) = true /\
  refresh_token (self_auth ex_expired_client) = None /\
  fst (StravaClient_ensure_authenticated (ex_world, ex_expired_client)) = Ok tt /\
  ~ (exists e, fst (StravaClient_ensure_authenticated (ex_world, ex_expired_client)) = Raise e).
Proof.
  repeat split; try reflexivity. intros [e H]. vm_compute in H. discriminate.
Qed.

(** C1, amended. For every credential record that is authenticated, expired
    and without a refresh token, [ensure_authenticated] returns normally:
    no refresh is attempted and neither the record nor the world changes. *)
Theorem ensure_authenticated_expired_without_refresh (w : World) (c : StravaClient) :
  is_authenticated (self_auth c) = true ->
  is_expired (now w) (self_auth c) = true ->
  truthy_ostr (refresh_token (self_auth c)) = false ->
  StravaClient_ensure_authenticated (w, c) = (Ok tt, (w, c)).
Proof.
  intros Ha He Hr.
  unfold StravaClient_ensure_authenticated, bind, get, StravaClient_is_authenticated.
  cbn [fst snd]. rewrite Ha, He, Hr. reflexivity.
Qed.

Lemma ensure_authenticated_expired_without_refresh_witness :
  StravaClient_ensure_authenticated (ex_world, ex_expired_client)
  = (Ok tt, (ex_world, ex_expired_client)).
Proof.
  apply (ensure_authenticated_expired_without_refresh ex_world ex_expired_client);
    reflexivity.
Defined.

Lemma refresh_attempts_app l1 l2 :
  refresh_attempts (l1 ++ l2) = (refresh_attempts l1 + refresh_attempts l2)%nat.
Proof. unfold refresh_attempts. now rewrite List.filter_app, List.length_app. Qed.

(** One call of [refresh_token] is one attempt. *)
Lemma refresh_token_attempts (w : World) (c : StravaClient) :
  refresh_attempts (trace (fst (snd (StravaClient_refresh_token (w, c)))))
  = S (refresh_attempts (trace w)).
Proof.
  rewrite refresh_token_run. cbn zeta.
  assert (H1 : refresh_attempts (trace (emit CallRefreshToken w))
               = S (refresh_attempts (trace w))).
  { cbn [emit trace]. rewrite refresh_attempts_app. cbn. lia. }
  assert (H2 : forall i s r, refresh_attempts
                 (trace (emit (StravalibRefresh i s r) (emit CallRefreshToken w)))
               = S (refresh_attempts (trace w))).
  { intros. cbn [emit trace] in *. rewrite refresh_attempts_app, H1. cbn. lia. }
  destruct (get_client_credentials w None) as [creds| |]; cbn [fst snd]; auto.
  destruct (negb _ || negb _); cbn [fst snd]; auto.
  destruct (negb _); cbn [fst snd]; auto.
  destruct (stravalib_refresh w _ _ _) as [resp| |]; cbn [fst snd]; auto.
  match goal with |- context [save ?a None ?b] =>
    pose proof (save_trace a None b) as Ht;
    destruct (save a None b) as [[[]| |] w3]; cbn [fst snd] in *; rewrite Ht; auto
  end.
Qed.

(** C7. [handle_unauthorized] calls [refresh_token] exactly once when a
    refresh token exists and not at all otherwise; it returns (the signal to
    retry) exactly when that one call succeeds, and every failure is the
    [AuthenticationError] that carries the hint to log in again. *)
Theorem handle_unauthorized_refreshes_once (w : World) (c : StravaClient) :
  let out := StravaClient_handle_unauthorized (w, c) in
  let attempt := StravaClient_refresh_token (w, c) in
  let unauthorized :=
    AuthenticationError "Unauthorized. Your token may have expired."
      (Some "Run 'strava auth login' to re-authenticate.") in
  (truthy_ostr (refresh_token (self_auth c)) = true ->
     refresh_attempts (trace (fst (snd out))) = S (refresh_attempts (trace w)) /\
     snd out = snd attempt /\
     match fst attempt with
     | Ok _ => fst out = Ok tt
     | Raise _ => fst out = Raise unauthorized
     | OutOfModel => fst out = OutOfModel
     end) /\
  (truthy_ostr (refresh_token (self_auth c)) = false ->
     out = (Raise unauthorized, (w, c))) /\
  (forall e, fst out = Raise e -> e = unauthorized).
Proof.
  cbn zeta. pose proof (refresh_token_attempts w c) as Hn.
  unfold StravaClient_handle_unauthorized, bind, get, try_except, raise, ret.
  cbn [fst snd].
  destruct (truthy_ostr (refresh_token (self_auth c))).
  - destruct (StravaClient_refresh_token (w, c)) as [[b| |] s1]; cbn [fst snd] in *;
      repeat split; auto; try (intros; discriminate);
      try (intros ? [= <-]; reflexivity).
  - cbn [fst snd]. repeat split; auto; try (intros; discriminate);
      try (intros ? [= <-]; reflexivity).
Qed.

Lemma handle_unauthorized_refreshes_once_witness :
  refresh_attempts (trace (fst (snd (StravaClient_handle_unauthorized
     (ex_world, StravaClient_new ex_config None))))) = 1%nat /\
  fst (StravaClient_handle_unauthorized (ex_world, StravaClient_new ex_config None))
  = Raise (AuthenticationError "Unauthorized. Your token may have expired."
             (Some "Run 'strava auth login' to re-authenticate.")).
Proof.
  destruct (handle_unauthorized_refreshes_once ex_world (StravaClient_new ex_config None))
    as [H _].
  destruct (H eq_refl) as (Hn & _ & Hr). split; [exact Hn|].
  vm_compute in Hr. exact Hr.
Defined.

Lemma client_property_inv (w : World) (c : StravaClient) :
  exists k, snd (client_property (w, c)) = (w, set__client k c).
Proof.
  unfold client_property. cbn [fst snd]. destruct (_client c) as [k|] eqn:E; cbn [snd].
  - exists (Some k). unfold set__client. rewrite <- E. now destruct c.
  - eauto.
Qed.

Lemma update_auth_set__client f k c :
  update_auth f (set__client k c) = set__client k (update_auth f c).
Proof. reflexivity. Qed.



(** ** [Config.clear_auth] *)

(** C10 does not hold as stated: a profile may be named by the empty
    string, and [clear_auth] then resets the default record and leaves the
    profile as it was. *)
Lemma clear_auth_empty_name_counterexample :
  ~ (forall (c : Config) (name : string),
        dict_mem name (profiles c) = true ->
        dict_get name (profiles (clear_auth c (Some name))) = Some AuthConfig_new /\
        auth (clear_auth c (Some name)) = auth c).
Proof.
  intros H. destruct (H ex_config_empty_name EmptyString eq_refl) as [H1 _].
  vm_compute in H1. discriminate.
Qed.

(** C10, amended. For a name that is not empty and is a key of the named
    profiles, [clear_auth] sets that profile to the all-absent record, keeps
    the keys and their order, and leaves every other profile, the default
    record and the rest of the document unchanged.  For a name that is not a
    key, and also for an absent or empty name, it resets the default record
    and leaves the profiles unchanged. *)
Theorem clear_auth_spec (c : Config) (name : option string) :
  (forall n, name = Some n -> truthy_str n = true -> dict_mem n (profiles c) = true ->
     dict_get n (profiles (clear_auth c name)) = Some AuthConfig_new /\
     keys (profiles (clear_auth c name)) = keys (profiles c) /\
     (forall n', n' <> n ->
        dict_get n' (profiles (clear_auth c name)) = dict_get n' (profiles c)) /\
     auth (clear_auth c name) = auth c /\
     defaults (clear_auth c name) = defaults c /\
     client_id (clear_auth c name) = client_id c /\
     client_secret (clear_auth c name) = client_secret c) /\
  (forall n, name = Some n -> dict_mem n (profiles c) = false ->
     auth (clear_auth c name) = AuthConfig_new /\
     profiles (clear_auth c name) = profiles c) /\
  (truthy_ostr name = false ->
     auth (clear_auth c name) = AuthConfig_new /\
     profiles (clear_auth c name) = profiles c).
Proof.
  unfold clear_auth. split; [|split].
  - intros n -> Ht Hm. cbn [truthy_ostr default]. unfold id. rewrite Ht, Hm.
    cbn [andb set_profiles profiles auth defaults client_id client_secret].
    split; [apply dict_get_set_eq|].
    split; [now apply keys_dict_set_mem|].
    split; [|repeat split; reflexivity].
    intros n' Hne. apply dict_get_set_ne. congruence.
  - intros n -> Hm. cbn [truthy_ostr default]. unfold id. rewrite Hm, andb_false_r.
    split; reflexivity.
  - intros ->. split; reflexivity.
Qed.

Lemma clear_auth_spec_witness :
  dict_get "work" (profiles (clear_auth ex_config (Some "work"))) = Some AuthConfig_new /\
  auth (clear_auth ex_config (Some "work")) = auth ex_config /\
  auth (clear_auth ex_config (Some "none")) = AuthConfig_new.
Proof.
  destruct (clear_auth_spec ex_config (Some "work")) as (H1 & _ & _).
  destruct (H1 "work" eq_refl eq_refl eq_refl) as (Ha & _ & _ & Hb & _).
  destruct (clear_auth_spec ex_config (Some "none")) as (_ & H2 & _).
  destruct (H2 "none" eq_refl eq_refl) as (Hc & _).
  repeat split; assumption.
Defined.

(** ** [Config.load] *)

(** A file that [tomllib] rejects makes [Config.load] raise
    [TOMLDecodeError], whatever the environment. *)
Lemma load_malformed (w : World) (path : Path) (text : string) :
  path_exists (fs w) path = true ->
  read_file path (fs w) = Ok text ->
  Toml.loads text = Raise TOMLDecodeError ->
  load w (Some path) = Raise TOMLDecodeError.
Proof.
  intros He Hr Ht. unfold load, _load_from_file. cbn [default]. unfold id.
  now rewrite He, Hr; cbn [rbind]; rewrite Ht.
Qed.

(** Without a file [Config.load] returns the defaults, with the token
    overrides of the environment applied. *)
Lemma load_missing_file (w : World) (path : Path) :
  path_exists (fs w) path = false ->
  load w (Some path) = Ok (_apply_env_overrides w Config_new).
Proof.
  intros He. unfold load. cbn [default]. unfold id. now rewrite He.
Qed.

Lemma load_missing_file_no_env (w : World) (path : Path) :
  path_exists (fs w) path = false ->
  truthy_ostr (getenv w "STRAVA_ACCESS_TOKEN") = false ->
  truthy_ostr (getenv w "STRAVA_REFRESH_TOKEN") = false ->
  load w (Some path) = Ok Config_new.
Proof.
  intros He Ha Hr. rewrite load_missing_file by exact He.
  unfold _apply_env_overrides. now rewrite Ha, Hr.
Qed.

(** C5, at a malformed file. The text [[auth] is not TOML; [Config.load]
    raises [TOMLDecodeError], which is neither a [ConfigurationError] nor any
    [StravaCLIError], so the command boundary of [with_client] lets it
    through: no error line is printed and no exit code 2 is produced. *)
Theorem load_malformed_raises_TOMLDecodeError :
  read_file (get_config_path ex_malformed_world) (fs ex_malformed_world) = Ok "[auth" /\
  Toml.loads "[auth" = Raise TOMLDecodeError /\
  load ex_malformed_world None = Raise TOMLDecodeError /\
  is_ConfigurationError TOMLDecodeError = false /\
  is_StravaCLIError TOMLDecodeError = false /\
  forall (A : Type) (func : M ClientState A),
    with_client (mkCliState false None None) func ex_malformed_world
    = (Raise TOMLDecodeError, ex_malformed_world).
Proof.
  assert (H : load ex_malformed_world None = Raise TOMLDecodeError)
    by (vm_compute; reflexivity).
  do 5 (split; [vm_compute; reflexivity|]).
  intros A func. unfold with_client. cbn [config_path truthy_ostr]. now rewrite H.
Qed.

(** C8 does not hold as stated: [Config.load] does not read the client
    credentials from the environment; the client id it returns is the one of
    the file. *)
Lemma load_keeps_file_client_id_counterexample :
  getenv ex_env_world "STRAVA_CLIENT_ID" = Some "222" /\
  exists c, load ex_env_world None = Ok c /\
            client_id c = Some "12345" /\ client_id c <> Some "222".
Proof.
  split; [reflexivity|]. eexists. split; [vm_compute; reflexivity|].
  split; [reflexivity|discriminate].
Qed.

(** C8, amended. [Config.load] applies the overrides of the access token and
    of the refresh token after the file is read: when one of them is set to
    a non-empty value, the default record holds that value.  It leaves the
    client id and secret as the file has them; their precedence is that of
    [get_client_credentials], which returns the value of the environment for
    each of the two that is set to a non-empty value. *)
Theorem env_overrides_spec (w : World) (path : option Path) (c : Config)
  (given : option Config) (creds : option string * option string) :
  load w path = Ok c ->
  get_client_credentials w given = Ok creds ->
  (forall v, getenv w "STRAVA_ACCESS_TOKEN" = Some v -> truthy_str v = true ->
     access_token (auth c) = Some v) /\
  (forall v, getenv w "STRAVA_REFRESH_TOKEN" = Some v -> truthy_str v = true ->
     refresh_token (auth c) = Some v) /\
  (exists c0, (if path_exists (fs w) (default (get_config_path w) path)
               then _load_from_file w (default (get_config_path w) path)
               else Ok Config_new) = Ok c0 /\
              client_id c = client_id c0 /\ client_secret c = client_secret c0) /\
  (forall v, getenv w "STRAVA_CLIENT_ID" = Some v -> truthy_str v = true ->
     fst creds = Some v) /\
  (forall v, getenv w "STRAVA_CLIENT_SECRET" = Some v -> truthy_str v = true ->
     snd creds = Some v).
Proof.
  unfold load. intros Hl Hc.
  destruct (if path_exists _ _ then _ else _) as [c0| |]; try discriminate.
  cbn [rbind] in Hl. injection Hl as <-.
  split; [|split; [|split; [|split]]].
  - intros v Hv Ht. unfold _apply_env_overrides. rewrite Hv. cbn [truthy_ostr]. rewrite Ht.
    destruct (truthy_ostr (getenv w "STRAVA_REFRESH_TOKEN")); reflexivity.
  - intros v Hv Ht. unfold _apply_env_overrides. rewrite Hv. cbn [truthy_ostr]. rewrite Ht.
    reflexivity.
  - exists c0. split; [reflexivity|]. unfold _apply_env_overrides.
    destruct (truthy_ostr (getenv w "STRAVA_ACCESS_TOKEN"));
      destruct (truthy_ostr (getenv w "STRAVA_REFRESH_TOKEN")); split; reflexivity.
  - intros v Hv Ht. unfold get_client_credentials in Hc. rewrite Hv in Hc.
    cbn [truthy_ostr] in Hc. rewrite Ht in Hc. cbn [negb orb] in Hc.
    destruct (negb (truthy_ostr (getenv w "STRAVA_CLIENT_SECRET"))).
    + destruct (match given with Some c1 => Ok c1 | None => load w None end);
        try discriminate. cbn [rbind] in Hc. now injection Hc as <-.
    + now injection Hc as <-.
  - intros v Hv Ht. unfold get_client_credentials in Hc. rewrite Hv in Hc.
    cbn [truthy_ostr] in Hc. rewrite Ht in Hc. cbn [negb] in Hc. rewrite orb_false_r in Hc.
    destruct (negb (truthy_ostr (getenv w "STRAVA_CLIENT_ID"))).
    + destruct (match given with Some c1 => Ok c1 | None => load w None end);
        try discriminate. cbn [rbind] in Hc. now injection Hc as <-.
    + now injection Hc as <-.
Qed.

Lemma env_overrides_spec_witness :
  exists c creds,
    load ex_env_world None = Ok c /\
    get_client_credentials ex_env_world (Some c) = Ok creds /\
    access_token (auth c) = Some "envtok" /\ fst creds = Some "222".
Proof.
  exists (_apply_env_overrides ex_env_world ex_config), (Some "222", Some "shh").
  assert (Hl : load ex_env_world None = Ok (_apply_env_overrides ex_env_world ex_config))
    by (vm_compute; reflexivity).
  assert (Hc : get_client_credentials ex_env_world
                 (Some (_apply_env_overrides ex_env_world ex_config))
               = Ok (Some "222", Some "shh"))
    by (vm_compute; reflexivity).
  destruct (env_overrides_spec ex_env_world None _ _ _ Hl Hc) as (Ha & _ & _ & Hi & _).
  split; [exact Hl|]. split; [exact Hc|].
  split; [apply Ha; reflexivity|apply Hi; reflexivity].
Defined.

(** ** The OAuth callback *)







(** With client credentials at hand, [interactive_login] is [login_flow]. *)
Lemma interactive_login_with_credentials (w : World) (cfg : Config) (i s : string)
  (scopes : option (list string)) (port : Z) :
  load w None = Ok cfg ->
  get_client_credentials w (Some cfg) = Ok (Some i, Some s) ->
  truthy_str i = true -> truthy_str s = true ->
  interactive_login scopes port w = login_flow i s scopes port w.
Proof.
  intros Hl Hc Hi Hs. unfold interactive_login, bind, get, lift_result.
  rewrite Hl, Hc. cbn [fst snd truthy_ostr default]. rewrite Hi, Hs. reflexivity.
Qed.

(** ** Reading back what [Config.save] writes *)

#[local] Arguments String.append !s1 s2 /.

Module TomlFacts.
Import Toml.

Lemma all_chars_app p s t : all_chars p (s +:+ t) = all_chars p s && all_chars p t.
Proof. induction s as [|c s IH]; simpl; [reflexivity|]. now rewrite IH, andb_assoc. Qed.

Lemma all_chars_impl (p q : ascii -> bool) s :
  (forall c, p c = true -> q c = true) -> all_chars p s = true -> all_chars q s = true.
Proof.
  intros H. induction s as [|c s IH]; simpl; [reflexivity|].
  intros Hs. apply andb_true_iff in Hs as [Hc Hs]. now rewrite (H c Hc), IH.
Qed.

Ltac by_cases_on_ascii c :=
  destruct c as [[] [] [] [] [] [] [] []]; try discriminate; reflexivity.

Lemma bare_not_ws c : is_bare c = true -> is_ws c = false.
Proof. by_cases_on_ascii c. Qed.

Lemma plain_not_dq c : is_plain c = true -> Ascii.eqb c dq = false.
Proof. by_cases_on_ascii c. Qed.

Lemma plain_print c : is_plain c = true -> is_print c = true.
Proof. by_cases_on_ascii c. Qed.

Lemma bare_print c : is_bare c = true -> is_print c = true.
Proof. by_cases_on_ascii c. Qed.

Lemma numeral_print c : is_numeral c = true -> is_print c = true.
Proof. by_cases_on_ascii c. Qed.

Lemma print_not_newline c : is_print c = true -> Ascii.eqb c newline = false.
Proof. by_cases_on_ascii c. Qed.

Lemma numeral_token c : is_numeral c = true -> is_ws c || Ascii.eqb c "#" = false.
Proof. by_cases_on_ascii c. Qed.

Lemma numeral_not_opening c :
  is_numeral c = true -> Ascii.eqb c dq = false /\ Ascii.eqb c "[" = false /\ is_ws c = false.
Proof.
  destruct c as [[] [] [] [] [] [] [] []]; try discriminate; repeat split; reflexivity.
Qed.

Lemma take_bare_app k rest :
  all_chars is_bare k = true ->
  match rest with String c _ => is_bare c = false | EmptyString => True end ->
  take_bare (k +:+ rest) = (k, rest).
Proof.
  intros Hk Hr. induction k as [|c k IH]; simpl in *.
  - destruct rest as [|c r]; [reflexivity|]. simpl. now rewrite Hr.
  - apply andb_true_iff in Hk as [Hc Hk]. now rewrite Hc, IH.
Qed.

Lemma take_token_all s :
  all_chars is_numeral s = true -> take_token s = (s, EmptyString).
Proof.
  induction s as [|c s IH]; simpl; [reflexivity|].
  intros H. apply andb_true_iff in H as [Hc Hs]. now rewrite (numeral_token c Hc), IH.
Qed.

Lemma basic_string_app v rest :
  plain v = true -> basic_string (v +:+ String dq rest) = LexOk v rest.
Proof.
  unfold plain. induction v as [|c v IH]; simpl; [reflexivity|].
  intros H. apply andb_true_iff in H as [Hc Hv].
  now rewrite (plain_not_dq c Hc), Hc, IH.
Qed.

Lemma one_line_string_app v rest :
  plain v = true ->
  match rest with String c _ => Ascii.eqb c dq = false | EmptyString => True end ->
  one_line_string (v +:+ String dq rest) = LexOk v rest.
Proof.
  intros Hv Hr. unfold one_line_string. rewrite basic_string_app by exact Hv.
  destruct v; [|reflexivity]. destruct rest as [|c r]; [reflexivity|]. now rewrite Hr.
Qed.

(** *** Decimal integers *)

Lemma string_of_uint_numeral d : all_chars is_numeral (NilEmpty.string_of_uint d) = true.
Proof. induction d; simpl; auto. Qed.

Lemma str_of_int_numeral z : all_chars is_numeral (str_of_int z) = true.
Proof.
  unfold str_of_int, NilZero.string_of_int, NilZero.string_of_uint.
  destruct (Z.to_int z) as [d|d]; destruct d; simpl;
    rewrite ?string_of_uint_numeral; reflexivity.
Qed.

Lemma str_of_int_nonempty z : exists c s, str_of_int z = String c s.
Proof.
  unfold str_of_int, NilZero.string_of_int, NilZero.string_of_uint.
  destruct (Z.to_int z) as [d|d]; destruct d; simpl; eauto.
Qed.

Lemma int_token_str_of_int z : int_token (str_of_int z) = Some z.
Proof.
  unfold int_token, str_of_int. rewrite NilZero.isi.
  - rewrite DecimalZ.of_to. now rewrite String.eqb_refl.
  - destruct z; simpl; try discriminate.
    intros [= H]. now apply DecimalPos.Unsigned.to_uint_nonnil in H.
  - destruct z; simpl; try discriminate.
    intros [= H]. now apply DecimalPos.Unsigned.to_uint_nonnil in H.
Qed.

End TomlFacts.

Module TomlLines.
Import Toml TomlFacts.

Lemma append_assoc' (a b c : string) : (a +:+ b) +:+ c = a +:+ (b +:+ c).
Proof. induction a as [|x a IH]; cbn; [reflexivity|now rewrite IH]. Qed.

Lemma length_append' (a b : string) :
  String.length (a +:+ b) = (String.length a + String.length b)%nat.
Proof. induction a as [|x a IH]; cbn; [reflexivity|now rewrite IH]. Qed.

Lemma array_items_space fuel s : array_items fuel (String " " s) = array_items fuel s.
Proof. destruct fuel; reflexivity. Qed.

Lemma array_items_render (l : list string) :
  l <> [] -> forallb plain l = true ->
  forall fuel rest, (length l <= fuel)%nat ->
  array_items fuel (String.concat ", " (map quoted l) +:+ String "]" rest) = LexOk l rest.
Proof.
  induction l as [|v l IH]; [congruence|]. intros _ Hp fuel rest Hf.
  simpl in Hp. apply andb_true_iff in Hp as [Hv Hl].
  destruct fuel as [|fuel]; [simpl in Hf; lia|].
  destruct l as [|v' l].
  - cbn [map String.concat]. unfold quoted. cbn [String.append].
    rewrite append_assoc'. cbn [String.append].
    cbn [array_items skip_ws is_ws Ascii.eqb]. unfold dq at 1 2. cbn.
    fold dq. rewrite one_line_string_app by (auto; reflexivity). reflexivity.
  - cbn [map String.concat]. unfold quoted at 1. cbn [String.append].
    rewrite append_assoc'. cbn [String.append]. rewrite append_assoc'.
    cbn [array_items skip_ws is_ws Ascii.eqb]. unfold dq at 1 2. cbn -[String.concat map array_items one_line_string].
    fold dq. rewrite one_line_string_app by (auto; reflexivity).
    cbn -[String.concat map array_items].
    rewrite array_items_space.
    change (String.concat ", " (quoted v' :: map quoted l))
      with (String.concat ", " (map quoted (v' :: l))).
    rewrite IH; [reflexivity|discriminate|exact Hl|simpl in *; lia].
Qed.
End TomlLines.

Module TomlValues.
Import Toml TomlFacts TomlLines.

Lemma bare_not_special c :
  is_bare c = true ->
  is_ws c = false /\ Ascii.eqb c "[" = false /\ Ascii.eqb c "]" = false /\
  Ascii.eqb c "." = false /\ Ascii.eqb c "=" = false.
Proof.
  destruct c as [[] [] [] [] [] [] [] []]; try discriminate; repeat split; reflexivity.
Qed.

Lemma parse_value_string v :
  plain v = true -> parse_value (String " " (quoted v)) = LexOk (VStr v) EmptyString.
Proof.
  intros Hv. unfold parse_value, quoted. cbn [skip_ws is_ws]. cbn.
  now rewrite one_line_string_app.
Qed.

Lemma parse_value_int z :
  parse_value (String " " (str_of_int z)) = LexOk (VInt z) EmptyString.
Proof.
  unfold parse_value. cbn [skip_ws is_ws]. cbn -[str_of_int].
  pose proof (str_of_int_numeral z) as Hn. pose proof (int_token_str_of_int z) as Hi.
  destruct (str_of_int_nonempty z) as (c & s & E). rewrite E in *.
  pose proof Hn as Hn0. cbn [all_chars] in Hn. apply andb_true_iff in Hn as [Hc Hs].
  destruct (numeral_not_opening c Hc) as (H1 & H2 & H3).
  cbn [skip_ws]. rewrite H3, H1, H2, (numeral_token c Hc).
  rewrite take_token_all by exact Hs.
  now rewrite Hi.
Qed.

Lemma length_concat_quoted l :
  (length l <= String.length (String.concat ", " (map quoted l)))%nat.
Proof.
  induction l as [|v l IH]; [simpl; lia|].
  destruct l as [|v' l].
  - cbn [map String.concat length]. unfold quoted. cbn [String.length]. lia.
  - change (String.concat ", " (map quoted (v :: v' :: l)))
      with (quoted v +:+ ", " +:+ String.concat ", " (map quoted (v' :: l))).
    rewrite !length_append'.
    set (R := String.length (String.concat ", " (map quoted (v' :: l)))) in *.
    change (String.length ", ") with 2%nat.
    cbn [length] in *. lia.
Qed.

Lemma parse_value_strings l :
  l <> [] -> forallb plain l = true ->
  parse_value (" [" +:+ String.concat ", " (map quoted l) +:+ "]")
  = LexOk (VStrs l) EmptyString.
Proof.
  intros Hne Hl. unfold parse_value. cbn [String.append skip_ws is_ws]. cbn -[String.concat map array_items String.length].
  rewrite array_items_render; auto.
  rewrite length_append'. pose proof (length_concat_quoted l). lia.
Qed.

Lemma skip_ws_bare c s : is_bare c = true -> skip_ws (String c s) = String c s.
Proof. intros H. cbn. now rewrite (bare_not_ws c H). Qed.

(** A [key = value] line. *)
Lemma parse_line_keyval key r v :
  bare_key key = true -> parse_value r = LexOk v EmptyString ->
  parse_line (key +:+ String " " (String "=" r)) = KeyVal key v.
Proof.
  unfold bare_key. intros Hk Hv. apply andb_true_iff in Hk as [Hne Hk].
  destruct key as [|c k]; [discriminate|].
  pose proof Hk as Hk'. cbn [all_chars] in Hk'. apply andb_true_iff in Hk' as [Hc _].
  destruct (bare_not_special c Hc) as (_ & Hb & _).
  unfold parse_line. cbn [String.append]. rewrite skip_ws_bare by exact Hc. rewrite Hb.
  change (String c (k +:+ String " " (String "=" r)))
    with (String c k +:+ String " " (String "=" r)).
  rewrite take_bare_app by (auto; reflexivity).
  cbn [skip_ws is_ws]. cbn -[parse_value]. now rewrite Hv.
Qed.

Lemma skip_ws_bare_app k rest : bare_key k = true -> skip_ws (k +:+ rest) = k +:+ rest.
Proof.
  unfold bare_key. intros Hk. apply andb_true_iff in Hk as [Hne Hk].
  destruct k as [|c k]; [discriminate|]. cbn [all_chars] in Hk.
  apply andb_true_iff in Hk as [Hc _]. cbn [String.append]. now apply skip_ws_bare.
Qed.

Lemma header_keys_dot fuel k rest :
  bare_key k = true ->
  header_keys (S fuel) (k +:+ String "." rest)
  = match header_keys fuel rest with
    | LexOk ks r => LexOk (k :: ks) r
    | LexError => LexError
    | LexBeyond => LexBeyond
    end.
Proof.
  intros Hk. cbn [header_keys]. rewrite skip_ws_bare_app by exact Hk.
  unfold bare_key in Hk. apply andb_true_iff in Hk as [Hne Hk].
  rewrite take_bare_app by (auto; reflexivity).
  destruct k; [discriminate|]. reflexivity.
Qed.

Lemma header_keys_close fuel k rest :
  bare_key k = true -> header_keys (S fuel) (k +:+ String "]" rest) = LexOk [k] rest.
Proof.
  intros Hk. cbn [header_keys]. rewrite skip_ws_bare_app by exact Hk.
  unfold bare_key in Hk. apply andb_true_iff in Hk as [Hne Hk].
  rewrite take_bare_app by (auto; reflexivity).
  destruct k; [discriminate|]. reflexivity.
Qed.

(** A table header with one or two bare keys. *)
Lemma parse_line_header1 k :
  bare_key k = true -> parse_line ("[" +:+ k +:+ "]") = Header [k].
Proof.
  intros Hk. unfold parse_line. cbn [String.append].
  change (skip_ws (String "[" (k +:+ "]"))) with (String "[" (k +:+ "]")).
  change (Ascii.eqb "[" "[") with true. cbv iota.
  pose proof Hk as Hk'. unfold bare_key in Hk'. apply andb_true_iff in Hk' as [_ Hb].
  destruct k as [|c k]; [discriminate|]. cbn [all_chars] in Hb.
  apply andb_true_iff in Hb as [Hc _]. destruct (bare_not_special c Hc) as (_ & Hbr & _).
  cbn [String.append]. rewrite Hbr.
  change (String c (k +:+ "]")) with (String c k +:+ "]").
  now rewrite header_keys_close.
Qed.

Lemma parse_line_header2 k1 k2 :
  bare_key k1 = true -> bare_key k2 = true ->
  parse_line ("[" +:+ k1 +:+ "." +:+ k2 +:+ "]") = Header [k1; k2].
Proof.
  intros Hk1 Hk2. unfold parse_line. cbn [String.append].
  change (skip_ws (String "[" (k1 +:+ String "." (k2 +:+ "]"))))
    with (String "[" (k1 +:+ String "." (k2 +:+ "]"))).
  change (Ascii.eqb "[" "[") with true. cbv iota.
  pose proof Hk1 as Hk'. unfold bare_key in Hk'. apply andb_true_iff in Hk' as [_ Hb].
  destruct k1 as [|c k]; [discriminate|]. cbn [all_chars] in Hb.
  apply andb_true_iff in Hb as [Hc _]. destruct (bare_not_special c Hc) as (_ & Hbr & _).
  cbn [String.append]. rewrite Hbr.
  change (String c (k +:+ String "." (k2 +:+ "]")))
    with (String c k +:+ String "." (k2 +:+ "]")).
  rewrite header_keys_dot by exact Hk1.
  rewrite length_append'. cbn [String.length]. rewrite Nat.add_succ_r.
  now rewrite header_keys_close.
Qed.

(** The header of a profile. *)
Lemma parse_line_profile_header name :
  bare_key name = true ->
  parse_line ("[profiles." +:+ name +:+ "]") = Header ["profiles"; name].
Proof.
  intros Hk. now apply (parse_line_header2 "profiles" name).
Qed.

End TomlValues.

Module TomlDoc.
Import Toml TomlFacts TomlLines TomlValues.

Lemma dict_get_app {V : Type} k (a b : dict V) :
  dict_get k (a ++ b) = match dict_get k a with Some v => Some v | None => dict_get k b end.
Proof.
  induction a as [|[k0 v0] a IH]; simpl; [reflexivity|].
  now destruct (String.eqb k k0).
Qed.

Lemma dict_get_None_keys {V : Type} k (d : dict V) : dict_get k d = None <-> ~ In k (keys d).
Proof.
  induction d as [|[k0 v0] d IH]; simpl; [tauto|].
  destruct (String.eqb_spec k k0) as [->|Hne]; [split; [discriminate|tauto]|].
  rewrite IH. split; [intros H [E|E]; [congruence|tauto]|tauto].
Qed.

Lemma dict_set_fresh {V : Type} k (v : V) d : dict_get k d = None -> dict_set k v d = d ++ [(k, v)].
Proof.
  induction d as [|[k0 v0] d IH]; simpl; [reflexivity|].
  destruct (String.eqb k k0); [discriminate|]. intros H. now rewrite IH.
Qed.

Lemma dict_set_last {V : Type} k (v v' : V) d :
  dict_get k d = None -> dict_set k v' (d ++ [(k, v)]) = d ++ [(k, v')].
Proof.
  induction d as [|[k0 v0] d IH]; simpl.
  - now rewrite String.eqb_refl.
  - destruct (String.eqb k k0); [discriminate|]. intros H. now rewrite IH.
Qed.

Lemma run_app st l1 l2 :
  run st (l1 ++ l2) = rbind (run st l1) (fun st' => run st' l2).
Proof.
  revert st. induction l1 as [|l l1 IH]; intros st; simpl; [reflexivity|].
  destruct (step st l); simpl; auto.
Qed.

Lemma focused_nil : focused [] (fun T => T).
Proof. intros f T T' H. exact H. Qed.

Lemma focused_cons k path ctx D :
  dict_get k D = None -> focused path ctx ->
  focused (k :: path) (fun T => D ++ [(k, VTab (ctx T))]).
Proof.
  intros Hk Hf f T T' H. cbn [at_path]. rewrite dict_get_app, Hk. cbn [dict_get].
  rewrite String.eqb_refl. rewrite (Hf f T T' H). now rewrite dict_set_last.
Qed.

Lemma renders_app l1 e1 l2 e2 : renders l1 e1 -> renders l2 e2 -> renders (l1 ++ l2) (e1 ++ e2).
Proof. apply Forall2_app. Qed.

Lemma run_entries ctx lines entries :
  renders lines entries ->
  forall st T0,
    focused (current st) ctx -> data st = ctx T0 ->
    NoDup (keys (T0 ++ entries)) ->
    run st lines = Ok (mkState (ctx (T0 ++ entries)) (declared st) (current st)).
Proof.
  induction 1 as [|l [k v] lines entries Hl _ IH]; intros st T0 Hf Hd Hnd.
  - rewrite app_nil_r, <- Hd. now destruct st.
  - cbn [run]. unfold step. rewrite Hl. cbn [fst snd].
    assert (Hk : dict_get k T0 = None).
    { apply dict_get_None_keys. unfold keys in *. rewrite map_app in Hnd.
      apply NoDup_app in Hnd as (_ & Hdis & _). intros Hin.
      apply list_elem_of_In in Hin. apply (Hdis k Hin).
      apply list_elem_of_In. cbn. now left. }
    rewrite Hd. rewrite (Hf (add_key k v) T0 (T0 ++ [(k, v)])).
    2:{ unfold add_key, dict_mem. rewrite Hk. now rewrite dict_set_fresh. }
    cbn [rbind]. rewrite (IH _ (T0 ++ [(k, v)])); cbn [current data declared]; auto.
    + now rewrite <- app_assoc.
    + now rewrite <- app_assoc.
Qed.

Lemma blank_line : parse_line EmptyString = Blank.
Proof. reflexivity. Qed.

Lemma not_declared p decl : ~ In p decl -> existsb (path_eqb p) decl = false.
Proof.
  intros H. apply not_true_is_false. intros E. apply existsb_exists in E as (q & Hq & Hp).
  unfold path_eqb in Hp. apply bool_decide_eq_true in Hp. now subst.
Qed.

(** A section that does not exist yet: its header, its entries, an empty
    line. *)
Lemma run_section st name hdr lines entries :
  parse_line hdr = Header [name] -> renders lines entries -> NoDup (keys entries) ->
  dict_get name (data st) = None -> ~ In [name] (declared st) ->
  run st (hdr :: lines ++ [EmptyString])
  = Ok (mkState (data st ++ [(name, VTab entries)]) ([name] :: declared st) [name]).
Proof.
  intros Hh Hr Hnd Hg Hdecl. cbn [run]. unfold step at 1. rewrite Hh.
  rewrite not_declared by exact Hdecl. cbn [at_path]. rewrite Hg.
  rewrite dict_set_fresh by exact Hg. cbn [rbind]. rewrite run_app.
  rewrite (run_entries (fun T => data st ++ [(name, VTab T)]) lines entries Hr _ []);
    cbn [current data declared]; auto.
  apply (focused_cons name [] (fun T => T)); [exact Hg|apply focused_nil].
Qed.

(** The section of one more profile. *)
Lemma run_profile st D P name hdr lines entries :
  parse_line hdr = Header ["profiles"; name] -> renders lines entries ->
  NoDup (keys entries) ->
  data st = D ++ profiles_part P -> dict_get "profiles" D = None ->
  dict_get name P = None -> ~ In ["profiles"; name] (declared st) ->
  run st (hdr :: lines ++ [EmptyString])
  = Ok (mkState (D ++ profiles_part (P ++ [(name, VTab entries)]))
                (["profiles"; name] :: declared st) ["profiles"; name]).
Proof.
  intros Hh Hr Hnd Hd HD HP Hdecl. cbn [run]. unfold step at 1. rewrite Hh.
  rewrite not_declared by exact Hdecl.
  assert (Hpp : forall T, profiles_part (P ++ [(name, VTab T)])
                          = [("profiles", VTab (P ++ [(name, VTab T)]))]).
  { intros T. now destruct P. }
  assert (Hat : at_path ["profiles"; name] Some (data st)
                = Some (D ++ profiles_part (P ++ [(name, VTab [])]))).
  { assert (Hin : at_path [name] Some P = Some (P ++ [(name, VTab [])])).
    { cbn [at_path]. rewrite HP. now rewrite dict_set_fresh. }
    assert (Hin0 : at_path [name] Some [] = Some [(name, VTab [])]) by reflexivity.
    rewrite Hd, Hpp.
    change (at_path ["profiles"; name] Some (D ++ profiles_part P))
      with (match dict_get "profiles" (D ++ profiles_part P) with
            | None => match at_path [name] Some [] with
                      | Some sub => Some (dict_set "profiles" (VTab sub) (D ++ profiles_part P))
                      | None => None
                      end
            | Some (VTab sub) =>
                match at_path [name] Some sub with
                | Some sub' => Some (dict_set "profiles" (VTab sub') (D ++ profiles_part P))
                | None => None
                end
            | Some _ => None
            end).
    rewrite dict_get_app, HD. destruct P as [|p P].
    - cbn [profiles_part dict_get]. rewrite Hin0, app_nil_r.
      now rewrite dict_set_fresh.
    - cbn [profiles_part]. change (dict_get "profiles" [("profiles", VTab (p :: P))])
        with (Some (VTab (p :: P))). cbv iota. rewrite Hin.
      now rewrite dict_set_last. }
  rewrite Hat. cbn [rbind]. rewrite run_app.
  rewrite (run_entries (fun T => D ++ [("profiles", VTab (P ++ [(name, VTab T)]))])
             lines entries Hr _ []); cbn [current data declared]; auto.
  - cbn [rbind run]. unfold step. rewrite blank_line. now rewrite Hpp.
  - apply (focused_cons "profiles" [name] (fun T => P ++ [(name, VTab T)])); [exact HD|].
    apply (focused_cons name [] (fun T => T)); [exact HP|apply focused_nil].
  - now rewrite Hpp.
Qed.

End TomlDoc.

Module SaveText.
Import Toml TomlFacts TomlLines TomlValues TomlDoc.

(** *** Each line reads back as its entry *)

Lemma renders_str_line key v :
  bare_key key = true -> plain_opt v = true -> renders (str_line key v) (str_entry key v).
Proof.
  intros Hk Hv. unfold str_line, str_entry.
  destruct v as [s|]; cbn [truthy_ostr]; [|constructor].
  destruct (truthy_str s); [|constructor].
  constructor; [|constructor]. cbn [fst snd default]. unfold id.
  change (key +:+ " = " +:+ quoted s)
    with (key +:+ String " " (String "=" (String " " (quoted s)))).
  apply parse_line_keyval; [exact Hk|now apply parse_value_string].
Qed.

Lemma renders_int_line key v :
  bare_key key = true -> renders (int_line key v) (int_entry key v).
Proof.
  intros Hk. unfold int_line, int_entry.
  destruct (truthy_oint v); [|constructor].
  constructor; [|constructor]. cbn [fst snd].
  change (key +:+ " = " +:+ str_of_int (default 0 v))
    with (key +:+ String " " (String "=" (String " " (str_of_int (default 0 v))))).
  apply parse_line_keyval; [exact Hk|apply parse_value_int].
Qed.

Lemma renders_scopes_line l :
  forallb plain l = true -> renders (scopes_line l) (strs_entry "scopes" l).
Proof.
  intros Hl. unfold scopes_line, strs_entry.
  destruct l as [|v l]; [constructor|]. cbn [truthy_list].
  constructor; [|constructor]. cbn [fst snd].
  change ("scopes = [" +:+ String.concat ", " (map quoted (v :: l)) +:+ "]")
    with ("scopes" +:+ String " " (String "="
            (" [" +:+ String.concat ", " (map quoted (v :: l)) +:+ "]"))).
  apply parse_line_keyval; [reflexivity|]. now apply parse_value_strings.
Qed.

(** *** The keys of a section are distinct *)

Ltac distinct_strings := apply (bool_decide_unpack _); vm_compute; reflexivity.

Lemma keys_str_entry key v : keys (str_entry key v) `sublist_of` [key].
Proof.
  unfold str_entry. destruct (truthy_ostr v); cbn; [reflexivity|apply sublist_nil_l].
Qed.

Lemma keys_int_entry key v : keys (int_entry key v) `sublist_of` [key].
Proof.
  unfold int_entry. destruct (truthy_oint v); cbn; [reflexivity|apply sublist_nil_l].
Qed.

Lemma keys_strs_entry key l : keys (strs_entry key l) `sublist_of` [key].
Proof.
  unfold strs_entry. destruct (truthy_list l); cbn; [reflexivity|apply sublist_nil_l].
Qed.

Lemma keys_app {V : Type} (a b : dict V) : keys (a ++ b) = keys a ++ keys b.
Proof. apply map_app. Qed.

Lemma NoDup_client_table c : NoDup (keys (client_table c)).
Proof.
  apply (sublist_NoDup _ ["id"; "secret"]).
  - distinct_strings.
  - unfold client_table. rewrite keys_app.
    apply (sublist_app _ ["id"] _ ["secret"]); [apply keys_str_entry|apply keys_str_entry].
Qed.

Lemma NoDup_profile_table a : NoDup (keys (profile_table a)).
Proof.
  apply (sublist_NoDup _ ["access_token"; "refresh_token"; "expires_at"; "athlete_id"]).
  - distinct_strings.
  - unfold profile_table. rewrite !keys_app.
    apply (sublist_app _ ["access_token"]); [apply keys_str_entry|].
    apply (sublist_app _ ["refresh_token"]); [apply keys_str_entry|].
    apply (sublist_app _ ["expires_at"] _ ["athlete_id"]); apply keys_int_entry.
Qed.

Lemma NoDup_auth_table a : NoDup (keys (auth_table a)).
Proof.
  apply (sublist_NoDup _ ["access_token"; "refresh_token"; "expires_at"; "athlete_id"; "scopes"]).
  - distinct_strings.
  - unfold auth_table. rewrite !keys_app.
    apply (sublist_app _ ["access_token"]); [apply keys_str_entry|].
    apply (sublist_app _ ["refresh_token"]); [apply keys_str_entry|].
    apply (sublist_app _ ["expires_at"]); [apply keys_int_entry|].
    apply (sublist_app _ ["athlete_id"] _ ["scopes"]);
      [apply keys_int_entry|apply keys_strs_entry].
Qed.

End SaveText.

Module SaveLines.
Import Toml TomlFacts TomlLines TomlValues TomlDoc SaveText.

(** *** The text splits back into the lines *)

Lemma split_on_printable l : printable l = true -> split_on newline l = [l].
Proof.
  unfold printable. induction l as [|c l IH]; cbn [split_on all_chars]; [reflexivity|].
  intros H. apply andb_true_iff in H as [Hc Hl].
  now rewrite (print_not_newline c Hc), IH.
Qed.

Lemma split_on_line l r :
  printable l = true -> split_on newline (l +:+ String newline r) = l :: split_on newline r.
Proof.
  unfold printable. induction l as [|c l IH]; cbn [split_on all_chars String.append].
  - now rewrite Ascii.eqb_refl.
  - intros H. apply andb_true_iff in H as [Hc Hl].
    now rewrite (print_not_newline c Hc), IH.
Qed.

Lemma split_lines_concat ls :
  ls <> [] -> Forall (fun l => printable l = true) ls ->
  split_lines (String.concat (String newline EmptyString) ls) = ls.
Proof.
  unfold split_lines. induction ls as [|l ls IH]; [congruence|]. intros _ H.
  inversion H as [|? ? Hl Hls]; subst. destruct ls as [|l' ls].
  - cbn [String.concat]. now apply split_on_printable.
  - change (String.concat (String newline EmptyString) (l :: l' :: ls))
      with (l +:+ String newline (String.concat (String newline EmptyString) (l' :: ls))).
    rewrite split_on_line by exact Hl. now rewrite IH.
Qed.

Lemma printable_app a b : printable (a +:+ b) = printable a && printable b.
Proof. apply all_chars_app. Qed.

Lemma plain_printable s : plain s = true -> printable s = true.
Proof. apply all_chars_impl, plain_print. Qed.

Lemma bare_printable s : bare_key s = true -> printable s = true.
Proof.
  unfold bare_key. intros H. apply andb_true_iff in H as [_ H].
  revert H. apply all_chars_impl, bare_print.
Qed.

Lemma int_printable z : printable (str_of_int z) = true.
Proof. apply (all_chars_impl is_numeral), str_of_int_numeral. apply numeral_print. Qed.

Lemma quoted_printable s : plain s = true -> printable (quoted s) = true.
Proof.
  intros H. unfold quoted. change (String dq (s +:+ String dq EmptyString))
    with (String dq EmptyString +:+ s +:+ String dq EmptyString).
  rewrite !printable_app, (plain_printable s H). reflexivity.
Qed.

Lemma scopes_printable l :
  forallb plain l = true -> printable (String.concat ", " (map quoted l)) = true.
Proof.
  induction l as [|v l IH]; [reflexivity|]. cbn [forallb]. intros H.
  apply andb_true_iff in H as [Hv Hl]. destruct l as [|v' l].
  - cbn [map String.concat]. now apply quoted_printable.
  - change (String.concat ", " (map quoted (v :: v' :: l)))
      with (quoted v +:+ ", " +:+ String.concat ", " (map quoted (v' :: l))).
    rewrite !printable_app, (quoted_printable v Hv), (IH Hl). reflexivity.
Qed.

Lemma str_line_printable key v :
  bare_key key = true -> plain_opt v = true ->
  Forall (fun l => printable l = true) (str_line key v).
Proof.
  intros Hk Hv. unfold str_line. destruct v as [s|]; cbn [truthy_ostr]; [|constructor].
  destruct (truthy_str s); constructor; [|constructor]. cbn [default]. unfold id.
  rewrite !printable_app, (bare_printable key Hk), (quoted_printable s Hv). reflexivity.
Qed.

Lemma int_line_printable key v :
  bare_key key = true -> Forall (fun l => printable l = true) (int_line key v).
Proof.
  intros Hk. unfold int_line. destruct (truthy_oint v); constructor; [|constructor].
  rewrite !printable_app, (bare_printable key Hk), int_printable. reflexivity.
Qed.

Lemma scopes_line_printable l :
  forallb plain l = true -> Forall (fun l => printable l = true) (scopes_line l).
Proof.
  intros Hl. unfold scopes_line. destruct (truthy_list l); constructor; [|constructor].
  rewrite !printable_app, (scopes_printable l Hl). reflexivity.
Qed.

End SaveLines.

Module SaveParse.
Import Toml TomlFacts TomlLines TomlValues TomlDoc SaveText SaveLines.

Lemma toml_writable_inv c :
  toml_writable c = true ->
  plain_opt (client_id c) = true /\ plain_opt (client_secret c) = true /\
  plain_opt (access_token (auth c)) = true /\ plain_opt (refresh_token (auth c)) = true /\
  forallb plain (scopes (auth c)) = true /\ plain (format (defaults c)) = true /\
  forallb profile_writable (profiles c) = true /\ NoDup (keys (profiles c)).
Proof.
  unfold toml_writable. rewrite !andb_true_iff, bool_decide_eq_true. tauto.
Qed.

Lemma profile_writable_inv np :
  profile_writable np = true ->
  bare_key (fst np) = true /\ plain_opt (access_token (snd np)) = true /\
  plain_opt (refresh_token (snd np)) = true.
Proof. unfold profile_writable. rewrite !andb_true_iff. tauto. Qed.

(** *** Every line is printable *)

Lemma client_lines_printable c :
  plain_opt (client_id c) = true -> plain_opt (client_secret c) = true ->
  Forall (fun l => printable l = true) (client_lines c).
Proof.
  intros Hi Hs. unfold client_lines. destruct (_ || _); [|constructor].
  repeat apply Forall_app_2; try (now apply str_line_printable);
    repeat constructor.
Qed.

Lemma auth_lines_printable a :
  plain_opt (access_token a) = true -> plain_opt (refresh_token a) = true ->
  forallb plain (scopes a) = true ->
  Forall (fun l => printable l = true) (auth_lines a).
Proof.
  intros Ha Hr Hs. unfold auth_lines.
  repeat apply Forall_app_2; try (now apply str_line_printable);
    try (now apply int_line_printable); try (now apply scopes_line_printable);
    repeat constructor.
Qed.

Lemma defaults_lines_printable d :
  plain (format d) = true -> Forall (fun l => printable l = true) (defaults_lines d).
Proof.
  intros Hf. unfold defaults_lines. repeat constructor.
  - rewrite !printable_app, (quoted_printable _ Hf). reflexivity.
  - rewrite !printable_app, int_printable. reflexivity.
Qed.

Lemma profile_lines_printable np :
  profile_writable np = true -> Forall (fun l => printable l = true) (profile_lines np).
Proof.
  intros H. destruct (profile_writable_inv np H) as (Hn & Ha & Hr). unfold profile_lines.
  repeat apply Forall_app_2; try (now apply str_line_printable);
    try (now apply int_line_printable); repeat constructor.
  rewrite !printable_app, (bare_printable _ Hn). reflexivity.
Qed.

Lemma save_lines_printable c :
  toml_writable c = true -> Forall (fun l => printable l = true) (save_lines c).
Proof.
  intros H. destruct (toml_writable_inv c H) as (Hi & Hs & Ha & Hr & Hsc & Hf & Hp & _).
  unfold save_lines.
  apply Forall_app_2; [|apply Forall_app_2; [|apply Forall_app_2]].
  - now apply client_lines_printable.
  - now apply auth_lines_printable.
  - now apply defaults_lines_printable.
  - clear -Hp. induction (profiles c) as [|np ps IH]; [constructor|].
    cbn [forallb flat_map] in *. apply andb_true_iff in Hp as [Hnp Hps].
    apply Forall_app_2; [now apply profile_lines_printable|now apply IH].
Qed.

Lemma save_lines_nonempty c : save_lines c <> [].
Proof.
  unfold save_lines, auth_lines. destruct (client_lines c); discriminate.
Qed.

(** *** The sections, one after the other *)

Lemma renders_client c :
  plain_opt (client_id c) = true -> plain_opt (client_secret c) = true ->
  renders (str_line "id" (client_id c) ++ str_line "secret" (client_secret c))
          (client_table c).
Proof.
  intros Hi Hs. apply renders_app; now apply renders_str_line.
Qed.

Lemma renders_auth a :
  plain_opt (access_token a) = true -> plain_opt (refresh_token a) = true ->
  forallb plain (scopes a) = true ->
  renders (str_line "access_token" (access_token a)
           ++ str_line "refresh_token" (refresh_token a)
           ++ int_line "expires_at" (expires_at a)
           ++ int_line "athlete_id" (athlete_id a) ++ scopes_line (scopes a))
          (auth_table a).
Proof.
  intros Ha Hr Hs. unfold auth_table.
  repeat apply renders_app; try (now apply renders_str_line);
    try (now apply renders_int_line). now apply renders_scopes_line.
Qed.

Lemma renders_profile a :
  plain_opt (access_token a) = true -> plain_opt (refresh_token a) = true ->
  renders (str_line "access_token" (access_token a)
           ++ str_line "refresh_token" (refresh_token a)
           ++ int_line "expires_at" (expires_at a)
           ++ int_line "athlete_id" (athlete_id a))
          (profile_table a).
Proof.
  intros Ha Hr. unfold profile_table.
  repeat apply renders_app; try (now apply renders_str_line);
    now apply renders_int_line.
Qed.

Lemma renders_defaults d :
  plain (format d) = true ->
  renders ["format = " +:+ quoted (format d); "limit = " +:+ str_of_int (limit d)]
          (defaults_table d).
Proof.
  intros Hf. unfold defaults_table. constructor; [|constructor; [|constructor]].
  - cbn [fst snd].
    change ("format = " +:+ quoted (format d))
      with ("format" +:+ String " " (String "=" (String " " (quoted (format d))))).
    apply parse_line_keyval; [reflexivity|now apply parse_value_string].
  - cbn [fst snd].
    change ("limit = " +:+ str_of_int (limit d))
      with ("limit" +:+ String " " (String "=" (String " " (str_of_int (limit d))))).
    apply parse_line_keyval; [reflexivity|apply parse_value_int].
Qed.

Lemma profile_lines_shape np :
  profile_lines np
  = ("[profiles." +:+ fst np +:+ "]")
    :: (str_line "access_token" (access_token (snd np))
        ++ str_line "refresh_token" (refresh_token (snd np))
        ++ int_line "expires_at" (expires_at (snd np))
        ++ int_line "athlete_id" (athlete_id (snd np))) ++ [EmptyString].
Proof. unfold profile_lines. cbn [app]. now rewrite <- !app_assoc. Qed.

Lemma auth_lines_shape a :
  auth_lines a
  = "[auth]"
    :: (str_line "access_token" (access_token a)
        ++ str_line "refresh_token" (refresh_token a)
        ++ int_line "expires_at" (expires_at a)
        ++ int_line "athlete_id" (athlete_id a) ++ scopes_line (scopes a))
       ++ [EmptyString].
Proof. unfold auth_lines. cbn [app]. now rewrite <- !app_assoc. Qed.

(** The profiles, after the fixed sections. *)
Lemma run_profiles D :
  dict_get "profiles" D = None ->
  forall ps st P,
    data st = D ++ profiles_part P ->
    (forall n, In ["profiles"; n] (declared st) -> In n (keys P)) ->
    NoDup (keys P ++ keys ps) ->
    forallb profile_writable ps = true ->
    exists st', run st (flat_map profile_lines ps) = Ok st' /\
                data st' = D ++ profiles_part (P ++ map profile_item ps).
Proof.
  intros HD. induction ps as [|[n a] ps IH]; intros st P Hd Hdecl Hnd Hw.
  - exists st. split; [reflexivity|]. now rewrite app_nil_r.
  - cbn [forallb] in Hw. apply andb_true_iff in Hw as [Hw Hws].
    destruct (profile_writable_inv _ Hw) as (Hn & Ha & Hr). cbn [fst snd] in *.
    assert (HnP : ~ In n (keys P)).
    { apply NoDup_app in Hnd as (_ & Hdis & _). intros Hin.
      apply list_elem_of_In in Hin. apply (Hdis n Hin). apply list_elem_of_In. now left. }
    cbn [flat_map]. rewrite run_app, profile_lines_shape. cbn [fst snd].
    rewrite (run_profile st D P n _ _ (profile_table a)); auto;
      try (now apply parse_line_profile_header); try (now apply renders_profile);
      try apply NoDup_profile_table; try (now apply dict_get_None_keys);
      try (intros Hin; apply HnP; now apply Hdecl).
    cbn [rbind].
    destruct (IH (mkState (D ++ profiles_part (P ++ [(n, VTab (profile_table a))]))
                          (["profiles"; n] :: declared st) ["profiles"; n])
                 (P ++ [(n, VTab (profile_table a))])) as (st' & Hrun & Hdata); auto.
    + cbn [declared]. intros m [E|Hin].
      * injection E as <-. unfold keys. rewrite map_app. apply in_or_app. right. now left.
      * unfold keys. rewrite map_app. apply in_or_app. left. now apply Hdecl.
    + unfold keys in *. rewrite map_app. cbn [map fst] in *. now rewrite <- app_assoc.
    + exists st'. split; [exact Hrun|]. rewrite Hdata. cbn [map].
      now rewrite <- app_assoc.
Qed.

(** What [tomllib] reads in the text that [Config.save] writes. *)
Lemma loads_save_text c :
  toml_writable c = true -> loads (save_text c) = Ok (saved_data c).
Proof.
  intros H. destruct (toml_writable_inv c H) as (Hi & Hs & Ha & Hr & Hsc & Hf & Hp & Hnd).
  unfold loads, save_text.
  rewrite split_lines_concat by (auto using save_lines_nonempty, save_lines_printable).
  unfold save_lines. rewrite run_app.
  (* [client] *)
  assert (H1 : exists st1, run initial (client_lines c) = Ok st1 /\
             data st1 = (if truthy_ostr (client_id c) || truthy_ostr (client_secret c)
                         then [("client", VTab (client_table c))] else []) /\
             ~ In ["auth"] (declared st1) /\ ~ In ["defaults"] (declared st1) /\
             (forall n, ~ In ["profiles"; n] (declared st1))).
  { unfold client_lines. destruct (_ || _).
    - eexists. split.
      + change (["[client]"] ++ ?x) with ("[client]" :: x). rewrite app_assoc.
        apply (run_section initial "client" _ _ (client_table c)); auto.
        * now apply renders_client.
        * apply NoDup_client_table.
      + cbn [data declared initial]. repeat split; try reflexivity;
          try (intros [E|[]]; discriminate). intros n [E|[]]; discriminate.
    - exists initial. repeat split; auto. }
  destruct H1 as (st1 & -> & Hd1 & Hna & Hnd1 & Hnp1). cbn [rbind]. rewrite run_app.
  (* [auth] *)
  assert (H2 : run st1 (auth_lines (auth c))
               = Ok (mkState (data st1 ++ [("auth", VTab (auth_table (auth c)))])
                             (["auth"] :: declared st1) ["auth"])).
  { rewrite auth_lines_shape.
    apply run_section; auto.
    - now apply renders_auth.
    - apply NoDup_auth_table.
    - rewrite Hd1. now destruct (_ || _). }
  rewrite H2. cbn [rbind]. rewrite run_app.
  (* [defaults] *)
  match goal with |- context [run ?st (defaults_lines ?d)] =>
    assert (H3 : run st (defaults_lines d)
                 = Ok (mkState (data st ++ [("defaults", VTab (defaults_table d))])
                               (["defaults"] :: declared st) ["defaults"]))
  end.
  { unfold defaults_lines.
    change ["[defaults]"; ?a; ?b; EmptyString] with ("[defaults]" :: [a; b] ++ [EmptyString]).
    apply run_section; auto.
    - now apply renders_defaults.
    - apply (bool_decide_unpack _). vm_compute. reflexivity.
    - cbn [data]. rewrite Hd1. now destruct (_ || _).
    - cbn [declared]. intros [E|Hin]; [discriminate|now apply Hnd1]. }
  rewrite H3. cbn [rbind data declared].
  (* [profiles.*] *)
  match goal with |- context [run ?st (flat_map profile_lines ?ps)] =>
    destruct (run_profiles (data st) ltac:(cbn [data]; rewrite Hd1; now destruct (_ || _))
                ps st []) as (st4 & Hrun & Hdata)
  end; auto.
  - cbn [data profiles_part]. now rewrite app_nil_r.
  - cbn [declared]. intros n [E|[E|Hin]]; try discriminate. now apply Hnp1 in Hin.
  - rewrite Hrun. cbn [rbind]. rewrite Hdata. cbn [data]. rewrite Hd1.
    unfold saved_data. cbn [app]. now rewrite <- !app_assoc.
Qed.

End SaveParse.

Module LoadBack.
Import Toml TomlDoc.

Ltac cases_of_auth a :=
  destruct a as [[[|? ?]|] [[|? ?]|] [[|?|?]|] [[|?|?]|] [|? ?]].

Lemma auth_of_auth_table a : auth_of_table (auth_table a) = Ok (normalize_auth a).
Proof. cases_of_auth a; reflexivity. Qed.

Lemma auth_of_profile_table a :
  auth_of_table (profile_table a) = Ok (without_scopes (normalize_auth a)).
Proof. cases_of_auth a; reflexivity. Qed.

Lemma auth_table_empty a : auth_table a = [] -> normalize_auth a = AuthConfig_new.
Proof. cases_of_auth a; intros H; try discriminate H; reflexivity. Qed.

Lemma load_profiles_items ps :
  forall acc, NoDup (keys acc ++ keys ps) ->
  load_profiles (map profile_item ps) acc
  = Ok (acc ++ map (fun np => (fst np, without_scopes (normalize_auth (snd np)))) ps).
Proof.
  induction ps as [|[n a] ps IH]; intros acc Hnd; cbn [map load_profiles profile_item fst snd].
  - now rewrite app_nil_r.
  - rewrite auth_of_profile_table. cbn [rbind].
    assert (Hn : dict_get n acc = None).
    { apply dict_get_None_keys. apply NoDup_app in Hnd as (_ & Hdis & _). intros Hin.
      apply list_elem_of_In in Hin. apply (Hdis n Hin). apply list_elem_of_In. now left. }
    rewrite dict_set_fresh by exact Hn. rewrite IH.
    + now rewrite <- app_assoc.
    + unfold keys in *. rewrite map_app. cbn [map fst] in *. now rewrite <- app_assoc.
Qed.

Lemma client_of_saved c :
  client_table c <> [] ->
  rbind (get_str "id" (client_table c)) (fun i =>
  rbind (get_str "secret" (client_table c)) (fun s => Ok (i, s)))
  = Ok (norm_str (client_id c), norm_str (client_secret c)).
Proof.
  unfold client_table.
  destruct (client_id c) as [[|? ?]|]; destruct (client_secret c) as [[|? ?]|];
    intros H; try reflexivity; now destruct H.
Qed.

Lemma client_table_nonempty c :
  truthy_ostr (client_id c) || truthy_ostr (client_secret c) = true ->
  truthy_list (client_table c) = true.
Proof.
  unfold client_table, str_entry. intros E. apply orb_true_iff in E as [E|E]; rewrite E;
    [reflexivity|]. now destruct (truthy_ostr (client_id c)).
Qed.

Lemma get_section_client c :
  get_section "client" (saved_data c)
  = Ok (if truthy_ostr (client_id c) || truthy_ostr (client_secret c)
        then Some (client_table c) else None).
Proof.
  unfold get_section, saved_data. rewrite dict_get_app.
  destruct (truthy_ostr (client_id c) || truthy_ostr (client_secret c)) eqn:E.
  - cbn [dict_get]. change (String.eqb "client" "client") with true. cbv iota.
    cbn [Toml.truthy]. now rewrite client_table_nonempty.
  - cbn [dict_get app]. change (String.eqb "client" "auth") with false.
    change (String.eqb "client" "defaults") with false. cbv iota.
    now destruct (map profile_item (profiles c)).
Qed.

Lemma dict_get_saved_data k c :
  String.eqb k "client" = false ->
  dict_get k (saved_data c)
  = dict_get k ([("auth", VTab (auth_table (auth c)));
                 ("defaults", VTab (defaults_table (defaults c)))]
                ++ profiles_part (map profile_item (profiles c))).
Proof.
  intros Hk. unfold saved_data. rewrite dict_get_app.
  destruct (_ || _); cbn [dict_get]; now rewrite ?Hk.
Qed.

Lemma get_section_auth c :
  get_section "auth" (saved_data c)
  = Ok (if truthy_list (auth_table (auth c)) then Some (auth_table (auth c)) else None).
Proof.
  unfold get_section. rewrite dict_get_saved_data by reflexivity.
  cbn [app dict_get]. change (String.eqb "auth" "auth") with true. cbv iota.
  cbn [Toml.truthy]. now destruct (truthy_list (auth_table (auth c))).
Qed.

Lemma get_section_defaults c :
  get_section "defaults" (saved_data c) = Ok (Some (defaults_table (defaults c))).
Proof.
  unfold get_section. rewrite dict_get_saved_data by reflexivity.
  cbn [app dict_get]. change (String.eqb "defaults" "auth") with false.
  change (String.eqb "defaults" "defaults") with true. cbv iota. reflexivity.
Qed.

Lemma get_section_profiles c :
  get_section "profiles" (saved_data c)
  = Ok (match profiles c with
        | [] => None
        | _ :: _ => Some (map profile_item (profiles c))
        end).
Proof.
  unfold get_section. rewrite dict_get_saved_data by reflexivity.
  cbn [app dict_get]. change (String.eqb "profiles" "auth") with false.
  change (String.eqb "profiles" "defaults") with false. cbv iota.
  destruct (profiles c); reflexivity.
Qed.

Lemma defaults_of_defaults_table d : defaults_of_table (defaults_table d) = Ok d.
Proof. now destruct d. Qed.

(** The document [Config._load_from_file] builds from what [tomllib]
    reads in the saved file. *)
Lemma config_of_saved_data c :
  NoDup (keys (profiles c)) -> config_of_data (saved_data c) = Ok (reloaded c).
Proof.
  intros Hnd. unfold config_of_data.
  rewrite get_section_client, get_section_auth, get_section_defaults, get_section_profiles.
  cbn [rbind]. rewrite defaults_of_defaults_table. cbn [rbind].
  assert (Hc : match (if truthy_ostr (client_id c) || truthy_ostr (client_secret c)
                      then Some (client_table c) else None) with
               | Some t => rbind (get_str "id" t) (fun i =>
                           rbind (get_str "secret" t) (fun s => Ok (i, s)))
               | None => Ok (None, None)
               end = Ok (norm_str (client_id c), norm_str (client_secret c))).
  { destruct (_ || _) eqn:E.
    - apply client_of_saved. apply client_table_nonempty in E.
      now destruct (client_table c).
    - apply orb_false_iff in E as [E1 E2]. unfold norm_str. now rewrite E1, E2. }
  assert (Ha : match (if truthy_list (auth_table (auth c))
                      then Some (auth_table (auth c)) else None) with
               | Some t => auth_of_table t
               | None => Ok AuthConfig_new
               end = Ok (normalize_auth (auth c))).
  { destruct (auth_table (auth c)) eqn:Et; cbn [truthy_list].
    - now rewrite (auth_table_empty _ Et).
    - rewrite <- Et. apply auth_of_auth_table. }
  assert (Hp : match (match profiles c with
                      | [] => None
                      | _ :: _ => Some (map profile_item (profiles c))
                      end) with
               | Some t => load_profiles t []
               | None => Ok []
               end = Ok (profiles (reloaded c))).
  { cbn [reloaded profiles]. destruct (profiles c) as [|p ps] eqn:Ep; [reflexivity|].
    rewrite <- Ep in *. now rewrite load_profiles_items. }
  rewrite Hc. cbn [rbind]. rewrite Ha. cbn [rbind].
  match goal with |- rbind ?m _ = _ =>
    replace m with (Ok (profiles (reloaded c))) by (symmetry; exact Hp)
  end. reflexivity.
Qed.

End LoadBack.

(** ** Save followed by load *)

(** The file that [Config.save] wrote for a writable document loads back as
    the normalized document, profiles without their scopes. *)
Lemma save_then_load_from_file (c : Config) (path : option Path) (w w' : World) :
  toml_writable c = true ->
  save c path w = (Ok tt, w') ->
  _load_from_file w' (default (get_config_path w) path) = Ok (reloaded c).
Proof.
  intros Hw Hs. unfold _load_from_file. rewrite (save_writes _ _ _ _ Hs). cbn [rbind].
  rewrite (SaveParse.loads_save_text c Hw). cbn [rbind].
  apply LoadBack.config_of_saved_data.
  apply SaveParse.toml_writable_inv in Hw. tauto.
Qed.




(** * Further properties of the configuration store *)

(** ** What a round trip keeps and what it drops *)

Lemma truthy_norm_str v : truthy_ostr (norm_str v) = truthy_ostr v.
Proof. unfold norm_str. now destruct (truthy_ostr v) eqn:E. Qed.

Lemma truthy_norm_int v : truthy_oint (norm_int v) = truthy_oint v.
Proof. unfold norm_int. now destruct (truthy_oint v) eqn:E. Qed.

Lemma str_line_norm key v : str_line key (norm_str v) = str_line key v.
Proof.
  unfold str_line. rewrite truthy_norm_str. unfold norm_str.
  now destruct (truthy_ostr v).
Qed.

Lemma int_line_norm key v : int_line key (norm_int v) = int_line key v.
Proof.
  unfold int_line. rewrite truthy_norm_int. unfold norm_int.
  now destruct (truthy_oint v).
Qed.

Lemma auth_lines_norm a : auth_lines (normalize_auth a) = auth_lines a.
Proof.
  unfold auth_lines, normalize_auth.
  cbn [access_token refresh_token expires_at athlete_id scopes].
  now rewrite !str_line_norm, !int_line_norm.
Qed.

Lemma profile_lines_norm n a :
  profile_lines (n, without_scopes (normalize_auth a)) = profile_lines (n, a).
Proof.
  unfold profile_lines, without_scopes, normalize_auth.
  cbn [fst snd access_token refresh_token expires_at athlete_id scopes].
  now rewrite !str_line_norm, !int_line_norm.
Qed.

Lemma save_lines_reloaded c : save_lines (reloaded c) = save_lines c.
Proof.
  unfold save_lines, reloaded. cbn [auth defaults profiles].
  rewrite auth_lines_norm. f_equal; [|f_equal; f_equal].
  - unfold client_lines. cbn [client_id client_secret].
    now rewrite !truthy_norm_str, !str_line_norm.
  - induction (profiles c) as [|[n a] ps IH]; [reflexivity|].
    cbn [map flat_map fst snd]. now rewrite profile_lines_norm, IH.
Qed.

Lemma norm_str_idem v : norm_str (norm_str v) = norm_str v.
Proof. unfold norm_str at 1. rewrite truthy_norm_str. unfold norm_str. now destruct (truthy_ostr v). Qed.

Lemma norm_int_idem v : norm_int (norm_int v) = norm_int v.
Proof. unfold norm_int at 1. rewrite truthy_norm_int. unfold norm_int. now destruct (truthy_oint v). Qed.

Lemma normalize_auth_idem a : normalize_auth (normalize_auth a) = normalize_auth a.
Proof.
  unfold normalize_auth. cbn [access_token refresh_token expires_at athlete_id scopes].
  now rewrite !norm_str_idem, !norm_int_idem.
Qed.

Lemma reloaded_idem c : reloaded (reloaded c) = reloaded c.
Proof.
  unfold reloaded. cbn [auth defaults profiles client_id client_secret].
  rewrite normalize_auth_idem, !norm_str_idem. f_equal.
  rewrite map_map. apply map_ext. intros [n a]. cbn [fst snd]. f_equal.
  unfold without_scopes, normalize_auth.
  cbn [access_token refresh_token expires_at athlete_id scopes].
  now rewrite !norm_str_idem, !norm_int_idem.
Qed.

Lemma plain_opt_norm v : plain_opt v = true -> plain_opt (norm_str v) = true.
Proof. unfold norm_str. now destruct (truthy_ostr v). Qed.

Lemma toml_writable_reloaded c : toml_writable c = true -> toml_writable (reloaded c) = true.
Proof.
  intros H. destruct (SaveParse.toml_writable_inv c H)
    as (Hi & Hs & Ha & Hr & Hsc & Hf & Hp & Hnd).
  unfold toml_writable, reloaded. cbn [auth defaults profiles client_id client_secret].
  cbn [normalize_auth access_token refresh_token scopes].
  rewrite !plain_opt_norm, Hsc, Hf by assumption. cbn [andb].
  apply andb_true_iff. split.
  - clear -Hp. induction (profiles c) as [|[n a] ps IH]; [reflexivity|].
    cbn [forallb map] in *. apply andb_true_iff in Hp as [Hnp Hps].
    rewrite (IH Hps), andb_true_r.
    apply SaveParse.profile_writable_inv in Hnp as (H1 & H2 & H3).
    unfold profile_writable. cbn [fst snd without_scopes normalize_auth access_token refresh_token] in *.
    now rewrite H1, !plain_opt_norm.
  - apply bool_decide_eq_true. unfold keys in *. rewrite map_map. cbn [fst]. exact Hnd.
Qed.

(** X1. Saving, loading and saving again writes the same text, and the
    document loaded is a fixed point of the round trip: for a writable
    document, what was loaded from its file is loaded again from the file
    written for it. *)
Theorem save_load_save_is_stable (c : Config) (path : option Path) (w w1 : World) :
  toml_writable c = true ->
  save c path w = (Ok tt, w1) ->
  exists c1,
    _load_from_file w1 (default (get_config_path w) path) = Ok c1 /\
    save_text c1 = save_text c /\
    forall w2, save c1 path w1 = (Ok tt, w2) ->
               _load_from_file w2 (default (get_config_path w) path) = Ok c1.
Proof.
  intros Hw Hs. exists (reloaded c).
  split; [now apply save_then_load_from_file|].
  split; [unfold save_text; now rewrite save_lines_reloaded|].
  intros w2 Hs2.
  assert (Hp : get_config_path w1 = get_config_path w).
  { destruct (save_frame c path w) as [f Hf]. rewrite Hs in Hf. cbn [snd] in Hf. now subst. }
  rewrite <- Hp. rewrite (save_then_load_from_file (reloaded c) path w1 w2); auto.
  - now rewrite reloaded_idem.
  - now apply toml_writable_reloaded.
Qed.

Lemma save_load_save_is_stable_witness :
  exists c1,
    _load_from_file (snd (save ex_config None ex_world)) (get_config_path ex_world) = Ok c1 /\
    save_text c1 = save_text ex_config.
Proof.
  destruct (save_load_save_is_stable ex_config None ex_world
              (snd (save ex_config None ex_world))) as (c1 & H1 & H2 & _).
  - vm_compute. reflexivity.
  - vm_compute. reflexivity.
  - exists c1. split; assumption.
Defined.

(** X2. The scopes of a named profile are not written: after a round trip
    every profile has an empty list of scopes, whatever it had, while the
    scopes of the default record come back as they were. *)
Theorem save_load_drops_profile_scopes (c : Config) (path : option Path) (w w' : World) :
  toml_writable c = true ->
  save c path w = (Ok tt, w') ->
  exists c',
    _load_from_file w' (default (get_config_path w) path) = Ok c' /\
    scopes (auth c') = scopes (auth c) /\
    keys (profiles c') = keys (profiles c) /\
    Forall (fun np => scopes (snd np) = []) (profiles c').
Proof.
  intros Hw Hs. exists (reloaded c).
  split; [now apply save_then_load_from_file|].
  cbn [reloaded auth profiles normalize_auth scopes]. split; [reflexivity|]. split.
  - unfold keys. rewrite map_map. reflexivity.
  - apply Forall_map. apply Forall_forall. intros [n a] _. reflexivity.
Qed.

(** A document with a profile that has scopes. *)
Lemma save_load_drops_profile_scopes_witness :
  let c := set_profiles [("work", mkAuthConfig (Some "t2") None None None ["read"])] ex_config in
  exists c',
    _load_from_file (snd (save c None ex_world)) (get_config_path ex_world) = Ok c' /\
    dict_get "work" (profiles c) = Some (mkAuthConfig (Some "t2") None None None ["read"]) /\
    Forall (fun np => scopes (snd np) = []) (profiles c').
Proof.
  cbn zeta.
  destruct (save_load_drops_profile_scopes
              (set_profiles [("work", mkAuthConfig (Some "t2") None None None ["read"])] ex_config)
              None ex_world
              (snd (save (set_profiles [("work", mkAuthConfig (Some "t2") None None None ["read"])]
                            ex_config) None ex_world)))
    as (c' & H1 & _ & _ & H2).
  - vm_compute. reflexivity.
  - vm_compute. reflexivity.
  - exists c'. repeat split; assumption.
Defined.

(** ** The file system around [Config.save] *)

Lemma os_mkdir_frame um p f f' :
  os_mkdir um p f = Ok f' ->
  files f' = files f /\ dirs f' = <[p := masked 511 um]> (dirs f) /\ dirs f !! p = None.
Proof.
  unfold os_mkdir. destruct (path_exists f p) eqn:Hex; [discriminate|].
  destruct (is_file f (parent p)); [discriminate|].
  destruct (negb (is_dir f (parent p))); [discriminate|].
  intros [= <-]. cbn [files dirs]. repeat split.
  unfold path_exists, is_dir in Hex. apply orb_false_iff in Hex as [Hf Hd].
  rewrite Hf in Hd. cbn [negb andb] in Hd.
  destruct (snd p); [discriminate|]. now destruct (dirs f !! p).
Qed.

(** [mkdir] with [parents=True] touches no file and keeps every directory
    that exists with its mode; it creates directories only on the way to
    [p]. *)
Lemma mkdir_parents_frame fuel um :
  forall p f f',
    mkdir_parents fuel um p f = Ok f' ->
    files f' = files f /\
    (forall q m, dirs f !! q = Some m -> dirs f' !! q = Some m) /\
    (forall q, (forall k, q <> (fst p, firstn k (snd p))) -> dirs f' !! q = dirs f !! q).
Proof.
  assert (Hself : forall p : Path, p = (fst p, firstn (length (snd p)) (snd p))).
  { intros [b l]. cbn. now rewrite firstn_all. }
  assert (Hmk : forall p f f', os_mkdir um p f = Ok f' ->
            files f' = files f /\
            (forall q m, dirs f !! q = Some m -> dirs f' !! q = Some m) /\
            (forall q, (forall k, q <> (fst p, firstn k (snd p))) -> dirs f' !! q = dirs f !! q)).
  { intros p f f' H. destruct (os_mkdir_frame _ _ _ _ H) as (Hf & Hd & Hn).
    split; [exact Hf|]. rewrite Hd. split.
    - intros q m Hq. rewrite lookup_insert_ne; [exact Hq|]. intros <-. congruence.
    - intros q Hq. rewrite lookup_insert_ne; [reflexivity|]. intros <-.
      apply (Hq (length (snd p))). apply Hself. }
  assert (Hex : forall e p f f', mkdir_exist_ok e p f = Ok f' -> f' = f).
  { intros e p f f'. unfold mkdir_exist_ok. destruct (is_dir f p); [|discriminate].
    now intros [= <-]. }
  induction fuel as [|fuel IH]; intros p f f'; cbn [mkdir_parents].
  - destruct (os_mkdir um p f) as [g|e|] eqn:E; [intros [= <-]; eauto| |discriminate].
    destruct e; try (intros H; apply Hex in H; subst; auto).
    destruct kind; try discriminate; intros H; apply Hex in H; subst; auto.
  - destruct (os_mkdir um p f) as [g|e|] eqn:E; [intros [= <-]; eauto| |discriminate].
    destruct e; try (intros H; apply Hex in H; subst; auto).
    destruct kind; try (intros H; apply Hex in H; subst; auto).
    destruct (snd p) as [|x l] eqn:Hp; [discriminate|].
    destruct (mkdir_parents fuel um (parent p) f) as [f1|e1|] eqn:E1; try discriminate.
    destruct (IH _ _ _ E1) as (Hf1 & Hd1 & Ho1).
    assert (Hpre : forall q, (forall k, q <> (fst p, firstn k (snd p))) ->
                             forall k, q <> (fst (parent p), firstn k (snd (parent p)))).
    { intros q Hq k. unfold parent. cbn [fst snd]. rewrite removelast_firstn_len.
      rewrite firstn_firstn. apply Hq. }
    assert (Hcomb : forall f2, (files f2 = files f1 /\
              (forall q m, dirs f1 !! q = Some m -> dirs f2 !! q = Some m) /\
              (forall q, (forall k, q <> (fst p, firstn k (snd p))) -> dirs f2 !! q = dirs f1 !! q)) ->
              files f2 = files f /\
              (forall q m, dirs f !! q = Some m -> dirs f2 !! q = Some m) /\
              (forall q, (forall k, q <> (fst p, firstn k (snd p))) -> dirs f2 !! q = dirs f !! q)).
    { intros f2 (H1 & H2 & H3). split; [congruence|]. split; [eauto|].
      intros q Hq. rewrite H3 by exact Hq. apply Ho1. apply Hpre. exact Hq. }
    rewrite <- Hp in *.
    destruct (os_mkdir um p f1) as [g|e|] eqn:E2; [intros [= <-]; eauto| |discriminate].
    destruct e; try (intros H; apply Hex in H; subst; apply Hcomb; auto).
    destruct kind; try discriminate; intros H; apply Hex in H; subst; apply Hcomb; auto.
Qed.

Lemma is_file_files f g p : files g = files f -> is_file g p = is_file f p.
Proof. unfold is_file. now intros ->. Qed.

Lemma parent_prefix (p : Path) :
  parent p = (fst p, firstn (Nat.pred (length (snd p))) (snd p)).
Proof. unfold parent. now rewrite removelast_firstn_len. Qed.


Lemma parent_not_prefix (p : Path) :
  snd p <> [] -> forall k, p <> (fst p, firstn k (snd (parent p))).
Proof.
  destruct p as [b l]. unfold parent. cbn [fst snd]. intros Hl k [= E].
  apply (f_equal (@length _)) in E.
  rewrite removelast_firstn_len, !length_firstn in E.
  destruct l; [congruence|cbn [length] in E; lia].
Qed.

Lemma is_dir_root f (p : Path) :
  snd p = [] -> is_file f (fst p, []) = false -> is_dir f p = true.
Proof.
  destruct p as [b l]. cbn [fst snd]. intros -> H. unfold is_dir. now rewrite H.
Qed.

Lemma parent_ne (p : Path) : snd p <> [] -> p <> parent p.
Proof.
  intros Hl E. apply (parent_not_prefix p Hl (length (snd (parent p)))).
  rewrite firstn_all. exact E.
Qed.

(** [mkdir] with [parents=True] succeeds when no file stands on the way. *)
Lemma mkdir_parents_ok um :
  forall fuel p f,
    (length (snd p) <= fuel)%nat ->
    (forall k, is_file f (fst p, firstn k (snd p)) = false) ->
    exists f', mkdir_parents fuel um p f = Ok f'.
Proof.
  induction fuel as [|fuel IH]; intros p f Hlen Hpre.
  all: assert (Hfp : is_file f p = false)
    by (specialize (Hpre (length (snd p))); rewrite firstn_all in Hpre;
        now destruct p).
  all: assert (Hfpar : is_file f (parent p) = false)
    by (rewrite parent_prefix; apply Hpre).
  all: cbn [mkdir_parents]; unfold os_mkdir at 1.
  all: destruct (path_exists f p) eqn:Hex;
    [unfold mkdir_exist_ok; unfold path_exists in Hex; rewrite Hfp in Hex;
     cbn [orb] in Hex; rewrite Hex; eauto|].
  all: rewrite Hfpar; destruct (is_dir f (parent p)) eqn:Hdp; cbn [negb]; [eauto|].
  all: assert (Hne : snd p <> [])
    by (intros Hnil; unfold path_exists, is_dir in Hex; rewrite Hfp, Hnil in Hex;
        discriminate).
  - destruct (snd p); [congruence|cbn in Hlen; lia].
  - destruct (IH (parent p) f) as [f1 E1].
    { unfold parent. cbn [snd]. rewrite removelast_firstn_len, length_firstn. lia. }
    { intros k. unfold parent. cbn [fst snd].
      rewrite removelast_firstn_len, firstn_firstn. apply Hpre. }
    destruct (mkdir_parents_frame _ _ _ _ _ E1) as (Hf1 & _ & _).
    pose proof (mkdir_parents_is_dir _ _ _ _ _ E1) as Hd1.
    destruct (snd p) as [|x l] eqn:Hp; [congruence|].
    rewrite E1. unfold os_mkdir.
    destruct (path_exists f1 p) eqn:Hex1.
    + unfold mkdir_exist_ok. unfold path_exists in Hex1.
      rewrite (is_file_files _ _ _ Hf1), Hfp in Hex1. cbn [orb] in Hex1.
      rewrite Hex1. eauto.
    + rewrite (is_file_files _ _ _ Hf1), Hfpar, Hd1. cbn [negb]. eauto.
Qed.

(** What a completed [Config.save] leaves behind, with the directories it
    started from. *)
Lemma save_ok_inv_mkdir (c : Config) (path : option Path) (w w' : World) :
  save c path w = (Ok tt, w') ->
  let cp := default (get_config_path w) path in
  exists f1 m,
    mkdir_parents (length (snd (parent cp))) (umask w) (parent cp) (fs w) = Ok f1 /\
    w' = set_fs (mkFS (<[parent cp := S_IRWXU]> (dirs f1))
                      (<[cp := (save_text c, Z.lor S_IRUSR S_IWUSR)]>
                         (<[cp := (save_text c, m)]> (files f1)))) w /\
    cp <> parent cp.
Proof.
  intros H cp. destruct (save_ok_inv _ _ _ _ H) as (f1 & m & Hw & _ & Hne).
  fold cp in Hw, Hne. revert H. unfold save, bind, get, fs_op. cbn zeta. fold cp.
  destruct (mkdir_parents _ _ (parent cp) (fs w)) as [g| |] eqn:Hmk; try discriminate.
  pose proof (mkdir_parents_is_dir _ _ _ _ _ Hmk) as Hd. cbn [fs set_fs umask].
  unfold chmod at 1. rewrite (is_dir_not_file _ _ Hd), Hd. cbn [fs set_fs umask].
  set (f2 := mkFS (<[parent cp:=S_IRWXU]> (dirs g)) (files g)).
  destruct (write_text (umask w) cp (save_text c) f2) as [f3| |] eqn:Hwt; try discriminate.
  assert (Hf3 : exists m', f3 = mkFS (dirs f2) (<[cp := (save_text c, m')]> (files f2))).
  { revert Hwt. unfold write_text. destruct (files f2 !! cp) as [[t m']|].
    - intros [= <-]. eauto.
    - destruct (is_dir f2 cp); [discriminate|].
      destruct (is_file f2 (parent cp)); [discriminate|].
      destruct (is_dir f2 (parent cp)); [|discriminate]. intros [= <-]. eauto. }
  destruct Hf3 as [m' ->]. cbn [fs set_fs]. unfold chmod. cbn [files dirs].
  rewrite lookup_insert_eq. cbn [fs set_fs]. intros [= <-].
  exists g, m'. split; [reflexivity|]. split; [reflexivity|exact Hne].
Qed.

(** X3. A completed [Config.save] changes nothing but the file system, and
    there nothing but its own file and the directories on the way to it:
    every other file keeps its content and mode, every directory that
    existed still exists, with its mode unless it is the directory of the
    file, and no directory appears off the path to it. *)
Theorem save_touches_only_its_path (c : Config) (path : option Path) (w w' : World) :
  save c path w = (Ok tt, w') ->
  let cp := default (get_config_path w) path in
  w' = set_fs (fs w') w /\
  (forall q, q <> cp -> files (fs w') !! q = files (fs w) !! q) /\
  (forall q m, q <> parent cp -> dirs (fs w) !! q = Some m -> dirs (fs w') !! q = Some m) /\
  (forall q m, dirs (fs w) !! q = Some m -> exists m', dirs (fs w') !! q = Some m') /\
  (forall q, (forall k, q <> (fst cp, firstn k (snd (parent cp)))) ->
             dirs (fs w') !! q = dirs (fs w) !! q).
Proof.
  intros H cp. destruct (save_ok_inv_mkdir _ _ _ _ H) as (f1 & m & Hmk & -> & Hne).
  fold cp in Hmk, Hne. destruct (mkdir_parents_frame _ _ _ _ _ Hmk) as (Hf & Hd & Ho).
  cbn [fs set_fs files dirs]. split; [reflexivity|]. split; [|split; [|split]].
  - intros q Hq. rewrite !lookup_insert_ne by (intros E; apply Hq; symmetry; exact E). now rewrite Hf.
  - intros q m0 Hq Hm. rewrite lookup_insert_ne by (intros E; apply Hq; symmetry; exact E). now apply Hd.
  - intros q m0 Hm. destruct (decide (q = parent cp)) as [->|Hq].
    + rewrite lookup_insert_eq. eauto.
    + rewrite lookup_insert_ne by (intros E; apply Hq; symmetry; exact E). eauto.
  - intros q Hq. rewrite lookup_insert_ne.
    + apply Ho. exact Hq.
    + intros E. apply (Hq (length (snd (parent cp)))).
      rewrite firstn_all. symmetry. exact E.
Qed.

Lemma save_touches_only_its_path_witness :
  let w' := snd (save ex_config None ex_world) in
  let cp := default (get_config_path ex_world) None in
  w' = set_fs (fs w') ex_world /\
  (forall q, q <> cp -> files (fs w') !! q = files (fs ex_world) !! q) /\
  (forall q m, q <> parent cp -> dirs (fs ex_world) !! q = Some m -> dirs (fs w') !! q = Some m) /\
  (forall q m, dirs (fs ex_world) !! q = Some m -> exists m', dirs (fs w') !! q = Some m') /\
  (forall q, (forall k, q <> (fst cp, firstn k (snd (parent cp)))) ->
             dirs (fs w') !! q = dirs (fs ex_world) !! q).
Proof.
  apply (save_touches_only_its_path ex_config None ex_world
           (snd (save ex_config None ex_world))).
  vm_compute. reflexivity.
Defined.

(** X4. [Config.save] completes, creating the missing directories, whenever
    no file stands where a directory on the way is needed and the path of
    the configuration file is not itself a directory. *)
Theorem save_creates_missing_directories (c : Config) (path : option Path) (w : World) :
  let cp := default (get_config_path w) path in
  (forall k, is_file (fs w) (fst cp, firstn k (snd (parent cp))) = false) ->
  is_dir (fs w) cp = false ->
  exists w', save c path w = (Ok tt, w') /\
             read_file cp (fs w') = Ok (save_text c).
Proof.
  intros cp Hpre Hc.
  assert (Hcomp : exists w', save c path w = (Ok tt, w')).
  2:{ destruct Hcomp as [w' Hs]. exists w'. split; [exact Hs|].
      now apply save_writes. }
  destruct (mkdir_parents_ok (umask w) (length (snd (parent cp))) (parent cp) (fs w))
    as [f1 Hmk]; [lia|exact Hpre|].
  destruct (mkdir_parents_frame _ _ _ _ _ Hmk) as (Hf & _ & Ho).
  pose proof (mkdir_parents_is_dir _ _ _ _ _ Hmk) as Hd1.
  assert (Hfpar : is_file (fs w) (parent cp) = false).
  { specialize (Hpre (length (snd (parent cp)))). now rewrite firstn_all in Hpre. }
  assert (Hnil : snd cp <> []).
  { intros Hnil. rewrite (is_dir_root _ _ Hnil (Hpre 0%nat)) in Hc. discriminate. }
  pose proof (parent_ne cp Hnil) as Hne.
  unfold save, bind, get, fs_op. cbn zeta. fold cp. rewrite Hmk. cbn [fs set_fs umask].
  unfold chmod at 1. rewrite (is_dir_not_file _ _ Hd1), Hd1. cbn [fs set_fs umask].
  set (f2 := mkFS (<[parent cp:=S_IRWXU]> (dirs f1)) (files f1)).
  assert (Hd2 : is_dir f2 (parent cp) = true).
  { apply is_dir_insert. now apply is_dir_not_file. }
  assert (Hw : exists m, write_text (umask w) cp (save_text c) f2
                 = Ok (mkFS (dirs f2) (<[cp := (save_text c, m)]> (files f2)))).
  { unfold write_text. destruct (files f2 !! cp) as [[t m]|] eqn:Hfc; [eauto|].
    assert (Hd : is_dir f2 cp = false).
    { cbn [files f2] in Hfc. rewrite Hf in Hfc.
      unfold is_dir, is_file in *. cbn [files dirs f2]. rewrite Hf, Hfc in *.
      cbn [negb andb] in *. destruct (snd cp) as [|x l] eqn:Hp; [discriminate|].
      rewrite lookup_insert_ne by congruence. rewrite Ho.
      - exact Hc.
      - intros k. rewrite <- Hp in Hnil. apply (parent_not_prefix cp Hnil k). }
    rewrite Hd, Hd2. unfold is_file. cbn [files f2]. rewrite (is_dir_not_file _ _ Hd1). eauto. }
  destruct Hw as [m ->]. cbn [fs set_fs]. unfold chmod. cbn [files dirs].
  rewrite lookup_insert_eq. eauto.
Qed.

Lemma save_creates_missing_directories_witness :
  exists w', save ex_config None ex_world = (Ok tt, w') /\
             read_file (get_config_path ex_world) (fs w') = Ok (save_text ex_config).
Proof.
  apply (save_creates_missing_directories ex_config None ex_world).
  - intros k. reflexivity.
  - vm_compute. reflexivity.
Defined.

(** ** More on the token lifecycle *)

(** The document of the client after [refresh_token]: as it was, or with the
    three values of the answer written to the selected record. *)
Lemma refresh_token_config (w : World) (c : StravaClient) :
  let c' := snd (snd (StravaClient_refresh_token (w, c))) in
  profile c' = profile c /\
  (config c' = config c \/
   exists resp,
     stravalib_refresh w
       (default EmptyString (fst (default (None, None)
          (match get_client_credentials w None with Ok x => Some x | _ => None end))))
       (default EmptyString (snd (default (None, None)
          (match get_client_credentials w None with Ok x => Some x | _ => None end))))
       (default EmptyString (refresh_token (self_auth c))) = Ok resp /\
     c' = set__client None (update_auth (fun a =>
            mkAuthConfig (Some (td_access_token resp)) (Some (td_refresh_token resp))
                         (Some (td_expires_at resp)) (athlete_id a) (scopes a)) c)).
Proof.
  cbn zeta. rewrite refresh_token_run. cbn zeta.
  destruct (client_property_inv (emit CallRefreshToken w) c) as [k Hk].
  rewrite Hk. cbn [snd].
  destruct (get_client_credentials w None) as [creds| |]; cbn [snd]; auto.
  destruct (negb _ || negb _); cbn [snd]; auto.
  destruct (negb _); cbn [snd]; auto.
  cbn [default]. unfold id.
  destruct (stravalib_refresh w _ _ _) as [resp| |] eqn:Hr; cbn [snd]; auto.
  match goal with |- context [save ?a None ?b] =>
    destruct (save a None b) as [[[]| |] w3]; cbn [snd]
  end; (split; [reflexivity|right; exists resp; split; [reflexivity|reflexivity]]).
Qed.

(** X5. [refresh_token] never returns [False]: it returns [True] or raises.
    So when the token is expired and a refresh token exists,
    [ensure_authenticated] ends exactly as that one call of [refresh_token]
    does (normally when it returns, with its exception when it raises), and
    the branch that raises "Unable to refresh expired token" is never
    taken. *)
Theorem ensure_authenticated_ends_as_refresh (w : World) (c : StravaClient) :
  is_authenticated (self_auth c) = true ->
  is_expired (now w) (self_auth c) = true ->
  truthy_ostr (refresh_token (self_auth c)) = true ->
  let out := StravaClient_ensure_authenticated (w, c) in
  let attempt := StravaClient_refresh_token (w, c) in
  fst attempt <> Ok false /\
  snd out = snd attempt /\
  fst out = match fst attempt with
            | Ok _ => Ok tt
            | Raise e => Raise e
            | OutOfModel => OutOfModel
            end.
Proof.
  intros Ha He Hr. cbn zeta.
  assert (Hnf : fst (StravaClient_refresh_token (w, c)) <> Ok false).
  { rewrite refresh_token_run. cbn zeta.
    destruct (get_client_credentials w None) as [creds| |]; cbn [fst]; try discriminate.
    destruct (negb _ || negb _); cbn [fst]; try discriminate.
    destruct (negb _); cbn [fst]; try discriminate.
    destruct (stravalib_refresh w _ _ _) as [resp| |]; cbn [fst]; try discriminate.
    match goal with |- context [save ?a None ?b] =>
      destruct (save a None b) as [[[]| |] w3]; cbn [fst]; discriminate
    end. }
  split; [exact Hnf|].
  unfold StravaClient_ensure_authenticated, bind, get, raise, ret,
    StravaClient_is_authenticated.
  cbn [fst snd]. rewrite Ha, He, Hr. cbn [negb andb].
  destruct (StravaClient_refresh_token (w, c)) as [[[|]| |] s1]; cbn [fst snd negb] in *;
    try (split; reflexivity).
  now destruct Hnf.
Qed.

Lemma ensure_authenticated_ends_as_refresh_witness :
  fst (StravaClient_ensure_authenticated (ex_online_world, ex_stale_client)) = Ok tt /\
  fst (StravaClient_ensure_authenticated (ex_offline_world, ex_stale_client))
  = Raise (TokenRefreshErrorFrom (EndpointError "offline")).
Proof.
  destruct (ensure_authenticated_ends_as_refresh ex_online_world ex_stale_client
              eq_refl eq_refl eq_refl) as (_ & _ & H1).
  destruct (ensure_authenticated_ends_as_refresh ex_offline_world ex_stale_client
              eq_refl eq_refl eq_refl) as (_ & _ & H2).
  split; [rewrite H1|rewrite H2]; vm_compute; reflexivity.
Defined.

(** X6. [ensure_authenticated] calls [refresh_token] exactly when the record
    has an access token, is expired and has a refresh token, and then once.
    In every other case it changes neither the client nor the world: it
    raises the default [AuthenticationError] without an access token and
    returns normally with one. *)
Theorem ensure_authenticated_refreshes_when_due (w : World) (c : StravaClient) :
  let out := StravaClient_ensure_authenticated (w, c) in
  let due := is_authenticated (self_auth c) && is_expired (now w) (self_auth c)
             && truthy_ostr (refresh_token (self_auth c)) in
  refresh_attempts (trace (fst (snd out)))
  = (refresh_attempts (trace w) + (if due then 1 else 0))%nat /\
  (due = false ->
     out = (if is_authenticated (self_auth c) then Ok tt
            else Raise (AuthenticationError
                          "Not authenticated. Run 'strava auth login' first." None),
            (w, c))).
Proof.
  cbn zeta. pose proof (refresh_token_attempts w c) as Hn.
  unfold StravaClient_ensure_authenticated, bind, get, raise, ret,
    StravaClient_is_authenticated.
  cbn [fst snd].
  destruct (is_authenticated (self_auth c)); cbn [negb andb].
  - destruct (is_expired (now w) (self_auth c) && truthy_ostr (refresh_token (self_auth c))).
    + split; [|discriminate].
      destruct (StravaClient_refresh_token (w, c)) as [[[|]| |] s1];
        cbn [fst snd negb] in *; rewrite Hn; lia.
    + cbn [fst snd]. split; [lia|reflexivity].
  - cbn [fst snd]. split; [lia|reflexivity].
Qed.

(** X7. With a non-empty [STRAVA_ACCESS_TOKEN] and no configuration file,
    [get_client] gives a client that holds that token with no expiry, under
    any profile name.  The record counts as expired; [ensure_authenticated]
    still returns with nothing changed when no refresh token is set, and
    attempts a refresh on every call when [STRAVA_REFRESH_TOKEN] is set
    too. *)
Theorem env_access_token_authenticates (w : World) (tok : string) (p : option string) :
  getenv w "STRAVA_ACCESS_TOKEN" = Some tok ->
  truthy_str tok = true ->
  path_exists (fs w) (get_config_path w) = false ->
  exists c,
    get_client w None p = Ok c /\
    access_token (self_auth c) = Some tok /\
    expires_at (self_auth c) = None /\
    is_expired (now w) (self_auth c) = true /\
    fst (client_property (w, c)) = Ok (Some tok) /\
    (truthy_ostr (getenv w "STRAVA_REFRESH_TOKEN") = false ->
       StravaClient_ensure_authenticated (w, c) = (Ok tt, (w, c))) /\
    (truthy_ostr (getenv w "STRAVA_REFRESH_TOKEN") = true ->
       refresh_attempts (trace (fst (snd (StravaClient_ensure_authenticated (w, c)))))
       = S (refresh_attempts (trace w))).
Proof.
  intros Henv Ht Hex.
  assert (Hl : load w None = Ok (_apply_env_overrides w Config_new)).
  { unfold load. cbn [default]. unfold id. now rewrite Hex. }
  exists (StravaClient_new (_apply_env_overrides w Config_new) p).
  unfold get_client. rewrite Hl. cbn [rbind]. split; [reflexivity|].
  assert (Hs : self_auth (StravaClient_new (_apply_env_overrides w Config_new) p)
               = mkAuthConfig (Some tok)
                   (if truthy_ostr (getenv w "STRAVA_REFRESH_TOKEN")
                    then getenv w "STRAVA_REFRESH_TOKEN" else None) None None []).
  { unfold self_auth, StravaClient_new, get_profile, _apply_env_overrides.
    cbn [config profile]. rewrite Henv. cbn [truthy_ostr]. rewrite Ht.
    destruct (truthy_ostr (getenv w "STRAVA_REFRESH_TOKEN"));
      cbn [profiles set_auth Config_new auth access_token refresh_token expires_at
           athlete_id scopes dict_mem dict_get];
      destruct p as [n|]; try reflexivity; now rewrite andb_false_r. }
  split; [now rewrite Hs|]. split; [now rewrite Hs|]. split; [now rewrite Hs|].
  split.
  { unfold client_property. cbn [fst snd StravaClient_new _client].
    rewrite Hs. cbn [access_token truthy_ostr]. now rewrite Ht. }
  split.
  - intros Hr.
    unfold StravaClient_ensure_authenticated, bind, get, raise, ret,
      StravaClient_is_authenticated.
    cbn [fst snd]. rewrite Hs. cbn [is_authenticated is_expired access_token expires_at
      refresh_token negb andb]. rewrite Hr. reflexivity.
  - intros Hr.
    pose proof (refresh_token_attempts w
                  (StravaClient_new (_apply_env_overrides w Config_new) p)) as Hn.
    unfold StravaClient_ensure_authenticated, bind, get, raise, ret,
      StravaClient_is_authenticated.
    cbn [fst snd]. rewrite Hs. cbn [is_authenticated is_expired access_token expires_at
      refresh_token negb andb]. rewrite Hr. cbn [andb].
    destruct (getenv w "STRAVA_REFRESH_TOKEN") as [r|]; [|discriminate].
    cbn [truthy_ostr] in *. rewrite Hr.
    destruct (StravaClient_refresh_token _) as [[[|]| |] s1];
      cbn [fst snd negb] in *; exact Hn.
Qed.

Lemma env_access_token_authenticates_witness :
  exists c,
    get_client ex_token_env_world None (Some "work") = Ok c /\
    access_token (self_auth c) = Some "envtok" /\
    StravaClient_ensure_authenticated (ex_token_env_world, c)
    = (Ok tt, (ex_token_env_world, c)).
Proof.
  destruct (env_access_token_authenticates ex_token_env_world "envtok" (Some "work")
              eq_refl eq_refl eq_refl) as (c & Hc & Ha & _ & _ & _ & He & _).
  exists c. split; [exact Hc|]. split; [exact Ha|]. apply He. reflexivity.
Defined.
